(** * Snapshot validator (scripts/validate_snapshot.py)

    A shallow embedding of the invariant checks, the runner that
    evaluates them, the verdict reporter and the command-line entry
    point, followed by the properties of the specification that hold
    (or fail) on the code.

    Layout:
    - Python values: exceptions, integers printed by [str], binary64
      floats, [str.join], [str.replace];
    - the snapshot and the SQL statements sent to it;
    - the six checks, [main] and the module-level guard;
    - lemmas and the theorems for the claims. *)

From Stdlib Require Import ZArith List String Ascii Bool Lia Permutation.
From Stdlib Require Import SpecFloat DecimalString DecimalPos DecimalZ.
Import ListNotations.

Local Open Scope list_scope.
Local Open Scope string_scope.
Local Open Scope Z_scope.

Set Implicit Arguments.

(* ------------------------------------------------------------------ *)
(** ** Exceptions and the error monad *)

(** The exceptions the script can meet.  [DBAPIError] stands for any
    exception leaving [conn.execute] or [engine.connect]; the other two
    are raised by Python's [int / int]. *)
Inductive exn : Type :=
| DBAPIError (msg : string)
| OverflowError
| ZeroDivisionError.

Inductive Result (A : Type) : Type :=
| Ok (a : A)
| Raise (e : exn).

Arguments Ok {A} a.
Arguments Raise {A} e.

Definition bind {A B : Type} (r : Result A) (k : A -> Result B) : Result B :=
  match r with
  | Ok a => k a
  | Raise e => Raise e
  end.

Notation "x <- r ;; k" := (bind r (fun x => k))
  (at level 61, r at next level, right associativity).

Definition is_ok {A : Type} (r : Result A) : bool :=
  match r with Ok _ => true | Raise _ => false end.

(* ------------------------------------------------------------------ *)
(** ** Strings *)

(** [chr(10)] *)
Definition nl : string := String (ascii_of_nat 10) "".

(** [str(n)] for a Python [int]. *)
Definition str_of_int (z : Z) : string := NilZero.string_of_int (Z.to_int z).

(** [sep.join(parts)] *)
Fixpoint join (sep : string) (parts : list string) : string :=
  match parts with
  | [] => ""
  | [p] => p
  | p :: rest => p ++ sep ++ join sep rest
  end.

(** [s.replace(chr(10), by)] *)
Fixpoint replace_nl (by_ : string) (s : string) : string :=
  match s with
  | EmptyString => ""
  | String c rest =>
      if Ascii.eqb c (ascii_of_nat 10) then by_ ++ replace_nl by_ rest
      else String c (replace_nl by_ rest)
  end.

(** [bool(s)]: a string is true when it is not empty. *)
Definition str_truthy (s : string) : bool :=
  match s with EmptyString => false | _ => true end.

(** Lower-casing of the ASCII letters, as [ILIKE] needs it. *)
Definition lower_ascii (c : ascii) : ascii :=
  let n := nat_of_ascii c in
  if andb (Nat.leb 65 n) (Nat.leb n 90) then ascii_of_nat (n + 32) else c.

Fixpoint lower (s : string) : string :=
  match s with
  | EmptyString => ""
  | String c rest => String (lower_ascii c) (lower rest)
  end.

(** [s ILIKE pat] for a pattern without [%], [_] or backslash: equality
    up to the case of letters.  The letters are those of ASCII: on text
    outside ASCII the database folds case by its locale, so the statements
    on labels take them in ASCII ([ascii_text]). *)
Definition ilike (s pat : string) : bool := String.eqb (lower s) (lower pat).

(** [needle in hay] *)
Fixpoint contains (needle hay : string) : bool :=
  if String.prefix needle hay then true
  else match hay with
       | EmptyString => false
       | String _ rest => contains needle rest
       end.

(* ------------------------------------------------------------------ *)
(** ** Python floats (IEEE 754 binary64) *)

Definition float : Type := spec_float.

Definition prec : Z := 53.
Definition emax : Z := 1024.

(** The exact value of an [int], before any rounding. *)
Definition float_of_int (a : Z) : float :=
  match a with
  | Z0 => S754_zero false
  | Zpos p => S754_finite false p 0
  | Zneg p => S754_finite true p 0
  end.

(** [a / b] on two [int]s: the quotient rounded once to the nearest
    binary64 (ties to even); [OverflowError] when that is out of range,
    [ZeroDivisionError] when [b] is [0].  A zero quotient takes the sign of
    [a] and [b] as in CPython ([0 / -5] is [-0.0]). *)
Definition int_true_div (a b : Z) : Result float :=
  if b =? 0 then Raise ZeroDivisionError
  else match SFdiv prec emax (float_of_int a) (float_of_int b) with
       | S754_infinity _ => Raise OverflowError
       | q => Ok q
       end.

(** Comparison of [m1 * 2^e1] with [m2 * 2^e2]. *)
Definition dyadic_compare (m1 : positive) (e1 : Z) (m2 : positive) (e2 : Z)
  : comparison :=
  let e := Z.min e1 e2 in
  Z.compare (Z.shiftl (Zpos m1) (e1 - e)) (Z.shiftl (Zpos m2) (e2 - e)).

(** [x > y] on floats: false as soon as one side is a NaN, and the two
    zeros are equal. *)
Definition float_gt (x y : float) : bool :=
  match x, y with
  | S754_nan, _ | _, S754_nan => false
  | S754_infinity sx, S754_infinity sy => andb (negb sx) sy
  | S754_infinity sx, _ => negb sx
  | _, S754_infinity sy => sy
  | S754_zero _, S754_zero _ => false
  | S754_zero _, S754_finite sy _ _ => sy
  | S754_finite sx _ _, S754_zero _ => negb sx
  | S754_finite sx mx ex, S754_finite sy my ey =>
      match sx, sy with
      | false, true => true
      | true, false => false
      | false, false =>
          match dyadic_compare mx ex my ey with Gt => true | _ => false end
      | true, true =>
          match dyadic_compare mx ex my ey with Lt => true | _ => false end
      end
  end.

(** [n / d] rounded to the nearest integer, ties to even ([0 < d]). *)
Definition round_half_even_div (n d : Z) : Z :=
  let q := n / d in
  let r := n mod d in
  match Z.compare (2 * r) d with
  | Lt => q
  | Gt => q + 1
  | Eq => if Z.even q then q else q + 1
  end.

(** [m * 2^e] in hundredths, correctly rounded. *)
Definition hundredths (m : positive) (e : Z) : Z :=
  if 0 <=? e then Z.shiftl (100 * Zpos m) e
  else round_half_even_div (100 * Zpos m) (Z.shiftl 1 (- e)).

Definition fixed2 (neg : bool) (h : Z) : string :=
  (if neg then "-" else "") ++ str_of_int (h / 100) ++ "." ++
  str_of_int ((h mod 100) / 10) ++ str_of_int (h mod 10).

(** [format(x, ".2f")] *)
Definition format_2f (x : float) : string :=
  match x with
  | S754_nan => "nan"
  | S754_infinity s => if s then "-inf" else "inf"
  | S754_zero s => fixed2 s 0
  | S754_finite s m e => fixed2 s (hundredths m e)
  end.

(** [100.0] *)
Definition float_100 : float := S754_finite false 25 2.

(** [format(x, ".2%")]: the float is multiplied by [100.0] (a float
    product) and printed as with [".2f"], followed by a percent sign. *)
Definition format_2pct (x : float) : string :=
  format_2f (SFmul prec emax x float_100) ++ "%".

(** The default of [--max-unknown-ratio]: the float [0.30]. *)
Definition default_max_unknown_ratio : float :=
  S754_finite false 5404319552844595 (-54).

(* ------------------------------------------------------------------ *)
(** ** The snapshot *)

(** Modelled from the spec: the tables of db/schema.sql, which is not
    part of the sources at hand.  Only the columns the validator reads are
    kept: the deck identifier of [deck_cards], the counters [uses] and
    [wins] of the five statistics tables, the label [deck_type] of
    [meta_deck_types], and one entry per row of [player].  Columns hold
    integers and text, never NULL. *)
Record deck_card_row : Type := {
  deck_hash : string;
  card_id : Z
}.

Record stats_row : Type := {
  deck_type : string; (* the label; read on [meta_deck_types] only *)
  uses : Z;
  wins : Z
}.

Record Snapshot : Type := {
  player : list string;
  player_decks : list stats_row;
  player_type_cards : list stats_row;
  deck_cards : list deck_card_row;
  meta_deck_types : list stats_row;
  meta_type_cards : list stats_row;
  meta_type_deck_ids : list stats_row
}.

(** The statistics table of a given name. *)
Definition stats_table (s : Snapshot) (t : string) : option (list stats_row) :=
  if String.eqb t "player_decks" then Some (player_decks s)
  else if String.eqb t "player_type_cards" then Some (player_type_cards s)
  else if String.eqb t "meta_deck_types" then Some (meta_deck_types s)
  else if String.eqb t "meta_type_cards" then Some (meta_type_cards s)
  else if String.eqb t "meta_type_deck_ids" then Some (meta_type_deck_ids s)
  else None.

(** An integer column of a statistics table. *)
Definition stats_column (c : string) : option (stats_row -> Z) :=
  if String.eqb c "uses" then Some uses
  else if String.eqb c "wins" then Some wins
  else None.

(* ------------------------------------------------------------------ *)
(** ** The SQL statements *)

(** The statements of the script, one constructor per text.

    - [Q_bad_deck_groups]:
      SELECT deck_hash, COUNT( * ) AS n FROM deck_cards
      GROUP BY deck_hash HAVING COUNT( * ) <> 8 LIMIT 20;
    - [Q_count_bad t u w]:
      SELECT COUNT( * ) FROM t WHERE w > u OR w < 0 OR u < 0;
    - [Q_count_meta]: SELECT COUNT( * ) FROM meta_deck_types;
    - [Q_sum_meta_uses]: SELECT COALESCE(SUM(uses),0) FROM meta_deck_types;
    - [Q_sum_unknown_uses]: SELECT COALESCE(SUM(uses),0)
      FROM meta_deck_types WHERE deck_type ILIKE 'unknown';
    - [Q_sum_player_decks_uses]:
      SELECT COALESCE(SUM(uses),0) FROM player_decks;
    - [Q_count_player]: SELECT COUNT( * ) FROM player; *)
Inductive rows_query : Type :=
| Q_bad_deck_groups.

Inductive scalar_query : Type :=
| Q_count_bad (t uses_col wins_col : string)
| Q_count_meta
| Q_sum_meta_uses
| Q_sum_unknown_uses
| Q_sum_player_decks_uses
| Q_count_player.

(** A connection answers a statement or raises.  [scalar] is the first
    column of the first row, [None] for SQL NULL; [fetchall] is the list of
    rows, here pairs (deck_hash, n). *)
Record Conn : Type := {
  scalar : scalar_query -> Result (option Z);
  fetchall : rows_query -> Result (list (string * Z))
}.

Definition _run_scalar (conn : Conn) (sql : scalar_query) : Result (option Z) :=
  scalar conn sql.

Definition _run_rows (conn : Conn) (sql : rows_query)
  : Result (list (string * Z)) :=
  fetchall conn sql.

(** *** What the statements compute on a snapshot *)

(** [COUNT( * )] *)
Definition sql_count {A : Type} (rows : list A) : Z := Z.of_nat (List.length rows).

(** [SUM(col)]: NULL on no row. *)
Definition sql_sum (vals : list Z) : option Z :=
  match vals with
  | [] => None
  | _ => Some (fold_right Z.add 0 vals)
  end.

(** [COALESCE(v, d)] *)
Definition coalesce (v : option Z) (d : Z) : Z :=
  match v with Some z => z | None => d end.

(** [w > u OR w < 0 OR u < 0] *)
Definition bad_counters (u w : stats_row -> Z) (r : stats_row) : bool :=
  (w r >? u r) || (w r <? 0) || (u r <? 0).

(** The keys of [GROUP BY], each once, in the order of first occurrence. *)
Fixpoint distinct (keys : list string) : list string :=
  match keys with
  | [] => []
  | k :: rest => k :: filter (fun k' => negb (String.eqb k' k)) (distinct rest)
  end.

(** The rows of a deck in [deck_cards]. *)
Definition rows_of_deck (t : list deck_card_row) (h : string) : Z :=
  sql_count (filter (fun r => String.eqb (deck_hash r) h) t).

(** [GROUP BY deck_hash] with [COUNT( * )]. *)
Definition deck_groups (t : list deck_card_row) : list (string * Z) :=
  map (fun h => (h, rows_of_deck t h)) (distinct (map deck_hash t)).

(** [HAVING COUNT( * ) <> 8] *)
Definition bad_deck_groups (t : list deck_card_row) : list (string * Z) :=
  filter (fun g => negb (snd g =? 8)) (deck_groups t).

(** [LIMIT 20] *)
Definition limit_20 {A : Type} (rows : list A) : list A := firstn 20 rows.

Definition unknown_rows (t : list stats_row) : list stats_row :=
  filter (fun r => ilike (deck_type r) "unknown") t.

Definition sum_uses (t : list stats_row) : Z :=
  coalesce (sql_sum (map uses t)) 0.

Definition eval_scalar (s : Snapshot) (q : scalar_query) : Result (option Z) :=
  match q with
  | Q_count_bad t u w =>
      match stats_table s t, stats_column u, stats_column w with
      | Some rows, Some fu, Some fw =>
          Ok (Some (sql_count (filter (bad_counters fu fw) rows)))
      | None, _, _ => Raise (DBAPIError ("relation " ++ t ++ " does not exist"))
      | _, None, _ => Raise (DBAPIError ("column " ++ u ++ " does not exist"))
      | _, _, None => Raise (DBAPIError ("column " ++ w ++ " does not exist"))
      end
  | Q_count_meta => Ok (Some (sql_count (meta_deck_types s)))
  | Q_sum_meta_uses => Ok (Some (sum_uses (meta_deck_types s)))
  | Q_sum_unknown_uses => Ok (Some (sum_uses (unknown_rows (meta_deck_types s))))
  | Q_sum_player_decks_uses => Ok (Some (sum_uses (player_decks s)))
  | Q_count_player => Ok (Some (sql_count (player s)))
  end.

(** SQL leaves the order of the groups open; [eval_rows] lists them in
    the order of first occurrence, and [bad_deck_answer] tells every
    answer the statement may give. *)
Definition eval_rows (s : Snapshot) (q : rows_query) : Result (list (string * Z)) :=
  match q with
  | Q_bad_deck_groups => Ok (limit_20 (bad_deck_groups (deck_cards s)))
  end.

Definition bad_deck_answer (t : list deck_card_row) (rows : list (string * Z))
  : Prop :=
  exists groups, Permutation groups (bad_deck_groups t) /\ rows = limit_20 groups.

(** A connection to a database that holds the snapshot [s]. *)
Definition connect (s : Snapshot) : Conn :=
  {| scalar := eval_scalar s; fetchall := eval_rows s |}.

(* ------------------------------------------------------------------ *)
(** ** Check results and the six checks *)

Record CheckResult : Type := {
  name : string;
  ok : bool;
  details : string
}.

(** [CheckResult(name=..., ok=...)]: [details] defaults to the empty
    string. *)
Definition mk_result (n : string) (b : bool) : CheckResult :=
  {| name := n; ok := b; details := "" |}.

(** [bool(n)] for what a scalar statement returns: [None] and [0] are
    false. *)
Definition truthy (n : option Z) : bool :=
  match n with
  | Some z => negb (z =? 0)
  | None => false
  end.

(** [int(n or 0)] *)
Definition int_or_0 (n : option Z) : Z :=
  match n with
  | Some z => z
  | None => 0
  end.

Definition deck_line (r : string * Z) : string :=
  "  " ++ fst r ++ " -> " ++ str_of_int (snd r).

Definition deck_details_header : string :=
  "Found deck_hash with != 8 cards (showing up to 20):" ++ nl.

Definition check_deck_cards_integrity (conn : Conn) : Result CheckResult :=
  rows <- _run_rows conn Q_bad_deck_groups ;;
  match rows with
  | _ :: _ =>
      let sample := join nl (map deck_line rows) in
      Ok {| name := "deck_cards: each deck_hash has exactly 8 cards";
            ok := false;
            details := deck_details_header ++ sample |}
  | [] => Ok (mk_result "deck_cards: each deck_hash has exactly 8 cards" true)
  end.

(** The list [tables] of [check_wins_uses_sanity]. *)
Definition tables : list (string * string * string) :=
  [ ("player_decks", "uses", "wins");
    ("player_type_cards", "uses", "wins");
    ("meta_deck_types", "uses", "wins");
    ("meta_type_cards", "uses", "wins");
    ("meta_type_deck_ids", "uses", "wins") ].

Definition bad_rows_reason (t : string) (n : Z) : string :=
  t ++ " has " ++ str_of_int n ++ " bad rows".

(** The [for] loop of [check_wins_uses_sanity]; [bad] is the list built
    so far. *)
Fixpoint wins_uses_loop (conn : Conn) (ts : list (string * string * string))
    (bad : list string) : Result (list string) :=
  match ts with
  | [] => Ok bad
  | (t, uses_col, wins_col) :: rest =>
      n <- _run_scalar conn (Q_count_bad t uses_col wins_col) ;;
      wins_uses_loop conn rest
        (if truthy n && (int_or_0 n >? 0)
         then List.app bad [bad_rows_reason t (int_or_0 n)]
         else bad)
  end.

Definition check_wins_uses_sanity (conn : Conn) : Result CheckResult :=
  bad <- wins_uses_loop conn tables [] ;;
  match bad with
  | _ :: _ =>
      Ok {| name := "wins/uses sanity (wins<=uses and non-negative)";
            ok := false;
            details := join "; " bad |}
  | [] => Ok (mk_result "wins/uses sanity (wins<=uses and non-negative)" true)
  end.

Definition check_meta_not_empty (conn : Conn) : Result CheckResult :=
  n <- _run_scalar conn Q_count_meta ;;
  if negb (truthy n) || (int_or_0 n =? 0) then
    Ok {| name := "meta sanity: meta_deck_types not empty";
          ok := false;
          details := "meta_deck_types is empty" |}
  else Ok (mk_result "meta sanity: meta_deck_types not empty" true).

Definition check_unknown_deck_type_explosion (conn : Conn)
    (max_unknown_ratio : float) : Result CheckResult :=
  total <- _run_scalar conn Q_sum_meta_uses ;;
  unknown <- _run_scalar conn Q_sum_unknown_uses ;;
  let total := int_or_0 total in
  let unknown := int_or_0 unknown in
  if total =? 0 then
    Ok {| name := "deck_type sanity: unknown ratio";
          ok := false;
          details := "meta_deck_types total uses is 0" |}
  else
    ratio <- int_true_div unknown total ;;
    if float_gt ratio max_unknown_ratio then
      Ok {| name := "deck_type sanity: unknown ratio";
            ok := false;
            details := "Unknown uses ratio too high: " ++ str_of_int unknown
                       ++ "/" ++ str_of_int total ++ " = " ++ format_2pct ratio
                       ++ " (max " ++ format_2pct max_unknown_ratio ++ ")" |}
    else
      Ok {| name := "deck_type sanity: unknown ratio";
            ok := true;
            details := "Unknown ratio: " ++ str_of_int unknown ++ "/"
                       ++ str_of_int total ++ " = " ++ format_2pct ratio |}.

Definition check_totals_sanity_topn_vs_meta (conn : Conn) : Result CheckResult :=
  topn_obs <- _run_scalar conn Q_sum_player_decks_uses ;;
  let topn_obs := int_or_0 topn_obs in
  meta_obs <- _run_scalar conn Q_sum_meta_uses ;;
  let meta_obs := int_or_0 meta_obs in
  if topn_obs =? 0 then
    Ok {| name := "totals sanity: meta_obs between topn_obs and 2*topn_obs";
          ok := false;
          details := "topn_obs (SUM(player_decks.uses)) is 0; did ETL write player_decks?" |}
  else if meta_obs <? topn_obs then
    Ok {| name := "totals sanity: meta_obs between topn_obs and 2*topn_obs";
          ok := false;
          details := "meta_obs < topn_obs (" ++ str_of_int meta_obs ++ " < "
                     ++ str_of_int topn_obs ++ ")" |}
  else if meta_obs >? 2 * topn_obs then
    Ok {| name := "totals sanity: meta_obs between topn_obs and 2*topn_obs";
          ok := false;
          details := "meta_obs > 2*topn_obs (" ++ str_of_int meta_obs ++ " > "
                     ++ str_of_int (2 * topn_obs) ++ ")" |}
  else
    ratio <- int_true_div meta_obs topn_obs ;;
    Ok {| name := "totals sanity: meta_obs between topn_obs and 2*topn_obs";
          ok := true;
          details := "topn_obs=" ++ str_of_int topn_obs ++ ", meta_obs="
                     ++ str_of_int meta_obs ++ ", ratio=" ++ format_2f ratio |}.

Definition check_expected_topn_player_count (conn : Conn)
    (expected_topn : option Z) : Result CheckResult :=
  match expected_topn with
  | None => Ok (mk_result "player count matches --top-n (skipped)" true)
  | Some expected =>
      n <- _run_scalar conn Q_count_player ;;
      let n := int_or_0 n in
      if negb (n =? expected) then
        Ok {| name := "player count matches --top-n";
              ok := false;
              details := "player table count = " ++ str_of_int n
                         ++ ", expected " ++ str_of_int expected |}
      else
        Ok {| name := "player count matches --top-n";
              ok := true;
              details := "player=" ++ str_of_int n |}
  end.

(* ------------------------------------------------------------------ *)
(** ** The runner, the report and the entry point *)

(** What [argparse] hands to [main]. *)
Record Args : Type := {
  database_url : option string;
  top_n : option Z;
  max_unknown_ratio : float
}.

Definition default_args : Args :=
  {| database_url := None;
     top_n := None;
     max_unknown_ratio := default_max_unknown_ratio |}.

(** The body of [with engine.connect() as conn:] in [main]. *)
Definition run_checks (conn : Conn) (args : Args) : Result (list CheckResult) :=
  c1 <- check_deck_cards_integrity conn ;;
  c2 <- check_wins_uses_sanity conn ;;
  c3 <- check_meta_not_empty conn ;;
  c4 <- check_expected_topn_player_count conn (top_n args) ;;
  c5 <- check_totals_sanity_topn_vs_meta conn ;;
  c6 <- check_unknown_deck_type_explosion conn (max_unknown_ratio args) ;;
  Ok [c1; c2; c3; c4; c5; c6].

(** The same calls as a list, for statements about each of them. *)
Definition catalog (args : Args) : list (Conn -> Result CheckResult) :=
  [ check_deck_cards_integrity;
    check_wins_uses_sanity;
    check_meta_not_empty;
    (fun conn => check_expected_topn_player_count conn (top_n args));
    check_totals_sanity_topn_vs_meta;
    (fun conn => check_unknown_deck_type_explosion conn (max_unknown_ratio args)) ].

(** What a run leaves behind: the lines printed on both streams and the
    exit status of the process. *)
Record Outcome : Type := {
  stdout : list string;
  stderr : list string;
  exit_status : Z
}.

(** [print(line)]: one more line at the end of what was printed. *)
Definition print (out : list string) (line : string) : list string :=
  List.app out [line].

(** The loop over [checks] in [main]: [out] collects the lines printed,
    [failed] counts the results that are not ok. *)
Fixpoint report_loop (checks : list CheckResult) (out : list string)
    (failed : Z) : list string * Z :=
  match checks with
  | [] => (out, failed)
  | c :: rest =>
      let status := if ok c then "OK" else "FAIL" in
      let out := print out ("  - " ++ status ++ ": " ++ name c) in
      let out :=
        if str_truthy (details c)
        then print out ("      " ++ replace_nl (nl ++ "      ") (details c))
        else out in
      report_loop rest out (if negb (ok c) then failed + 1 else failed)
  end.

Definition count_failed (checks : list CheckResult) : Z :=
  snd (report_loop checks [] 0).

(** [main] from the line that prints the header to [sys.exit]. *)
Definition report (checks : list CheckResult) : Outcome :=
  let '(out, failed) := report_loop checks [nl ++ "[VALIDATE] RESULTS"] 0 in
  if negb (failed =? 0) then
    {| stdout := print out (nl ++ "[VALIDATE] FAILED (" ++ str_of_int failed
                             ++ " checks).");
       stderr := [];
       exit_status := 1 |}
  else
    {| stdout := print out (nl ++ "[VALIDATE] PASSED.");
       stderr := [];
       exit_status := 0 |}.

Definition no_url_message : string :=
  "DATABASE_URL is not set (and --database-url not provided).".

(** [_get_database_url]: [cli_value or os.getenv(...)], where [env] is
    the value of the variable DATABASE_URL; [None] stands for the call of
    [_fail]. *)
Definition _get_database_url (cli_value env : option string) : option string :=
  let url :=
    match cli_value with
    | Some v => if str_truthy v then Some v else env
    | None => env
    end in
  match url with
  | Some u => if str_truthy u then Some u else None
  | None => None
  end.

(** [_fail(msg)]: one line on the standard output, then [SystemExit(1)]. *)
Definition _fail (msg : string) : Outcome :=
  {| stdout := ["[VALIDATE] FAIL: " ++ msg]; stderr := []; exit_status := 1 |}.

Definition exn_text (e : exn) : string :=
  match e with
  | DBAPIError msg => "sqlalchemy.exc.DBAPIError: " ++ msg
  | OverflowError => "OverflowError: integer division result too large for a float"
  | ZeroDivisionError => "ZeroDivisionError: division by zero"
  end.

(** An exception that nothing catches ends the process: the traceback
    goes to the standard error and the status is 1. *)
Definition uncaught (e : exn) : Outcome :=
  {| stdout := []; stderr := ["Traceback (most recent call last):"; exn_text e];
     exit_status := 1 |}.

(** [main]; [engine] stands for [create_engine(url).connect()]. *)
Definition main (env : option string) (args : Args)
    (engine : string -> Result Conn) : Outcome :=
  match _get_database_url (database_url args) env with
  | None => _fail no_url_message
  | Some url =>
      match (conn <- engine url ;; run_checks conn args) with
      | Ok checks => report checks
      | Raise e => uncaught e
      end
  end.

(** The script as the interpreter runs it: the statements at the top of
    the module first ([DATABASE_URL = os.getenv(...)] and the guard on
    it, which raises [SystemExit] with a message), then [main].  [env] is
    the variable DATABASE_URL once [load_dotenv()] has run, [None] when it
    is not set; [args] is what [parse_args] has returned (a command line
    on which it ends the process itself is in [script_on_command_line]). *)
Definition script (env : option string) (args : Args)
    (engine : string -> Result Conn) : Outcome :=
  let DATABASE_URL := env in
  let unset :=
    match DATABASE_URL with
    | Some v => negb (str_truthy v)
    | None => true
    end in
  if unset then
    {| stdout := []; stderr := ["[VALIDATE] FAIL: " ++ no_url_message];
       exit_status := 1 |}
  else main env args engine.

(* ------------------------------------------------------------------ *)
(** ** Notions used in the statements *)

Definition is_infinity (x : float) : bool :=
  match x with S754_infinity _ => true | _ => false end.

(** The five statistics tables of a snapshot under their names, in the
    order of [tables]. *)
Definition named_tables (s : Snapshot) : list (string * list stats_row) :=
  [ ("player_decks", player_decks s);
    ("player_type_cards", player_type_cards s);
    ("meta_deck_types", meta_deck_types s);
    ("meta_type_cards", meta_type_cards s);
    ("meta_type_deck_ids", meta_type_deck_ids s) ].


Definition bad_count (rows : list stats_row) : Z :=
  sql_count (filter (bad_counters uses wins) rows).

Definition offending (nt : string * list stats_row) : bool :=
  bad_count (snd nt) >? 0.

Definition table_reason (nt : string * list stats_row) : string :=
  bad_rows_reason (fst nt) (bad_count (snd nt)).

(** The results that are not ok. *)
Definition failures (checks : list CheckResult) : list CheckResult :=
  filter (fun c => negb (ok c)) checks.

(** The checks of a list, one after the other, as [main] calls them. *)
Fixpoint run_all (cs : list (Conn -> Result CheckResult)) (conn : Conn)
  : Result (list CheckResult) :=
  match cs with
  | [] => Ok []
  | c :: rest =>
      r <- c conn ;;
      rs <- run_all rest conn ;;
      Ok (r :: rs)
  end.

(** *** Snapshots and connections for the examples *)

Definition card (h : string) (i : Z) : deck_card_row :=
  {| deck_hash := h; card_id := i |}.

Definition counters (label : string) (u w : Z) : stats_row :=
  {| deck_type := label; uses := u; wins := w |}.

(** Deck D1 has eight rows and deck D2 seven; [player_decks] holds a row
    with more wins than uses; a quarter of the 100 observations of
    [player_decks] plus 50 more make up [meta_deck_types], 25 of them under
    the label [Unknown]. *)
Definition sample_snapshot : Snapshot :=
  {| player := ["#P0"; "#P1"];
     player_decks := [counters "" 5 6; counters "" 95 40];
     player_type_cards := [counters "" 3 1];
     deck_cards := List.app (map (card "D1") [1; 2; 3; 4; 5; 6; 7; 8])
                            (map (card "D2") [1; 2; 3; 4; 5; 6; 7]);
     meta_deck_types := [counters "Unknown" 25 10; counters "Hog Cycle" 125 60];
     meta_type_cards := [counters "" (-1) (-2); counters "" 0 0];
     meta_type_deck_ids := [] |}.

(** Two one-row tables with the given sums of [uses]. *)
Definition totals_snapshot (topn_obs meta_obs : Z) : Snapshot :=
  {| player := [];
     player_decks := [counters "" topn_obs 0];
     player_type_cards := [];
     deck_cards := [];
     meta_deck_types := [counters "Hog Cycle" meta_obs 0];
     meta_type_cards := [];
     meta_type_deck_ids := [] |}.

(** [meta_deck_types] with [unknown] observations under the placeholder
    label out of [total]. *)
Definition ratio_snapshot (unknown total : Z) : Snapshot :=
  {| player := [];
     player_decks := [];
     player_type_cards := [];
     deck_cards := [];
     meta_deck_types := [counters "UNKNOWN" unknown 0;
                         counters "Hog Cycle" (total - unknown) 0];
     meta_type_cards := [];
     meta_type_deck_ids := [] |}.

Definition empty_snapshot : Snapshot :=
  {| player := [];
     player_decks := [];
     player_type_cards := [];
     deck_cards := [];
     meta_deck_types := [];
     meta_type_cards := [];
     meta_type_deck_ids := [] |}.

(** A connection that is lost when the rows of [player] are counted. *)
Definition dropped_on_player (s : Snapshot) : Conn :=
  {| scalar := fun q =>
       match q with
       | Q_count_player => Raise (DBAPIError "server closed the connection")
       | _ => eval_scalar s q
       end;
     fetchall := eval_rows s |}.

Definition with_top_n (n : Z) : Args :=
  {| database_url := None;
     top_n := Some n;
     max_unknown_ratio := default_max_unknown_ratio |}.

Definition with_database_url (url : string) : Args :=
  {| database_url := Some url;
     top_n := None;
     max_unknown_ratio := default_max_unknown_ratio |}.

(* ------------------------------------------------------------------ *)
(** ** More notions for the validator *)

(** The lines that the loop of [main] prints for one result. *)
Definition render_check (c : CheckResult) : list string :=
  ("  - " ++ (if ok c then "OK" else "FAIL") ++ ": " ++ name c)
  :: (if str_truthy (details c)
      then ["      " ++ replace_nl (nl ++ "      ") (details c)]
      else []).

(** The last line of the report. *)
Definition verdict_line (checks : list CheckResult) : string :=
  if count_failed checks =? 0 then nl ++ "[VALIDATE] PASSED."
  else nl ++ "[VALIDATE] FAILED (" ++ str_of_int (count_failed checks)
       ++ " checks).".

Fixpoint newline_free (s : string) : bool :=
  match s with
  | EmptyString => true
  | String c rest => negb (Ascii.eqb c (ascii_of_nat 10)) && newline_free rest
  end.

Definition is_nan (x : float) : bool :=
  match x with S754_nan => true | _ => false end.

(** The place of a float among the infinities, and its value in units
    of [2^E] when it is finite ([E] at most its exponent). *)
Definition float_class (x : float) : Z :=
  match x with
  | S754_infinity false => 1
  | S754_infinity true => -1
  | _ => 0
  end.

Definition float_exponent (x : float) : Z :=
  match x with S754_finite _ _ e => e | _ => 0 end.

Definition float_scaled (E : Z) (x : float) : Z :=
  match x with
  | S754_finite s m e => (if s then -1 else 1) * (Zpos m * 2 ^ (e - E))
  | _ => 0
  end.

(** The float [m * 2^e] for [0 <= m]; zero when [m] is 0. *)
Definition float_parts (m e : Z) : float :=
  match m with
  | Z0 => S754_zero false
  | Zpos p => S754_finite false p e
  | Zneg _ => S754_nan
  end.

(** [int(s)] on a decimal numeral. *)
Definition int_of_str (s : string) : option Z :=
  option_map Z.of_int (NilZero.int_of_string s).

(** One decimal digit as text. *)
Definition digit (d : Z) : string :=
  String (ascii_of_nat (48 + Z.to_nat d)) EmptyString.

(** What [ap.parse_args()] does with a command line: it returns the
    arguments, or ends the process itself: with status 0 after the help
    text on the standard output for [--help], with status 2 after the
    usage and the error on the standard error for a command line it does
    not accept (an unknown option, a [--top-n] that is no integer, a
    [--max-unknown-ratio] that is no float). *)
Inductive parse_outcome : Type :=
| Parsed (args : Args)
| HelpExit (help : list string)
| UsageError (usage : list string).

(** The script on a command line: the guard at the top of the module,
    then [parse_args] at the start of [main], then the rest of [main]. *)
Definition script_on_command_line (env : option string) (parse : parse_outcome)
    (engine : string -> Result Conn) : Outcome :=
  let unset :=
    match env with
    | Some v => negb (str_truthy v)
    | None => true
    end in
  if unset then
    {| stdout := []; stderr := ["[VALIDATE] FAIL: " ++ no_url_message];
       exit_status := 1 |}
  else
    match parse with
    | HelpExit help => {| stdout := help; stderr := []; exit_status := 0 |}
    | UsageError usage => {| stdout := []; stderr := usage; exit_status := 2 |}
    | Parsed args => main env args engine
    end.

(** [bool(v)] for an optional string: [None] and the empty string are
    false. *)
Definition opt_truthy (v : option string) : bool :=
  match v with
  | Some u => str_truthy u
  | None => false
  end.

(** A connection on which every statement raises. *)
Definition dead_conn : Conn :=
  {| scalar := fun _ => Raise (DBAPIError "connection refused");
     fetchall := fun _ => Raise (DBAPIError "connection refused") |}.


(** A connection that answers the two sums of the cross-table check with
    [a] and [b]. *)
Definition sums_conn (a b : option Z) : Conn :=
  {| scalar := fun q =>
       match q with
       | Q_sum_player_decks_uses => Ok a
       | Q_sum_meta_uses => Ok b
       | _ => Raise (DBAPIError "not answered")
       end;
     fetchall := fun _ => Raise (DBAPIError "not answered") |}.

(** Twenty-five decks of one card each. *)
Definition many_bad_decks : list deck_card_row :=
  map (fun i => card (str_of_int (Z.of_nat i)) 1) (seq 0 25).

(* ------------------------------------------------------------------ *)
(** ** The API client (src/api) *)

(** Text is ASCII: [strip] and [upper] are those of Python on the
    characters below 128. *)
Definition is_space (c : ascii) : bool :=
  let n := nat_of_ascii c in
  (Nat.leb 9 n && Nat.leb n 13) || (Nat.leb 28 n && Nat.leb n 32).

Definition upper_ascii (c : ascii) : ascii :=
  let n := nat_of_ascii c in
  if andb (Nat.leb 97 n) (Nat.leb n 122) then ascii_of_nat (n - 32) else c.

(** [s.upper()] *)
Fixpoint upper (s : string) : string :=
  match s with
  | EmptyString => EmptyString
  | String c rest => String (upper_ascii c) (upper rest)
  end.

(** [s.lstrip()] *)
Fixpoint lstrip (s : string) : string :=
  match s with
  | EmptyString => EmptyString
  | String c rest => if is_space c then lstrip rest else s
  end.

(** [s.rstrip()] *)
Fixpoint rstrip (s : string) : string :=
  match s with
  | EmptyString => EmptyString
  | String c rest =>
      match rstrip rest with
      | EmptyString => if is_space c then EmptyString else String c EmptyString
      | rest' => String c rest'
      end
  end.

(** [s.strip()] *)
Definition strip (s : string) : string := rstrip (lstrip s).

(** [s.startswith("#")] *)
Definition starts_with_hash (s : string) : bool :=
  match s with
  | String c _ => Ascii.eqb c "#"
  | EmptyString => false
  end.

(** src/api/battles.py (and the copy in test_grab_player_info.py). *)
Definition normalize_player_tag (tag : string) : string :=
  let cleaned := upper (strip tag) in
  if negb (starts_with_hash cleaned) then "#" ++ cleaned else cleaned.

(** [s.replace("#", "%23", 1)]: the first [#] only. *)
Fixpoint encode_first_hash (s : string) : string :=
  match s with
  | EmptyString => EmptyString
  | String c rest =>
      if Ascii.eqb c "#" then "%23" ++ rest
      else String c (encode_first_hash rest)
  end.

(** Text made of ASCII characters only, on which [strip], [upper] and
    the case folding of [ILIKE] are those of the byte strings here. *)
Fixpoint ascii_text (s : string) : bool :=
  match s with
  | EmptyString => true
  | String c rest => Nat.ltb (nat_of_ascii c) 128 && ascii_text rest
  end.

(** Values of parsed JSON.  The pairs of a [JDict] are the items of the
    Python dict: their keys are pairwise distinct. *)
#[warnings="-register-all"]
Inductive json : Type :=
| JNull
| JBool (b : bool)
| JInt (z : Z)
| JFloat (f : float)
| JStr (s : string)
| JList (items : list json)
| JDict (items : list (string * json)).

(** [bool(v)] *)
Definition json_truthy (v : json) : bool :=
  match v with
  | JNull => false
  | JBool b => b
  | JInt z => negb (z =? 0)
  | JFloat (S754_zero _) => false
  | JFloat _ => true
  | JStr s => str_truthy s
  | JList [] => false
  | JList (_ :: _) => true
  | JDict [] => false
  | JDict (_ :: _) => true
  end.

Fixpoint dict_lookup (items : list (string * json)) (key : string) : option json :=
  match items with
  | [] => None
  | (k, v) :: rest => if String.eqb k key then Some v else dict_lookup rest key
  end.

Inductive api_exn : Type :=
| RuntimeError (msg : string)
| AttributeError (type_name : string)
| RequestException (msg : string)
| JSONDecodeError (msg : string).

Inductive Try (A : Type) : Type :=
| Returns (a : A)
| Raises (e : api_exn).

Arguments Returns {A} a.
Arguments Raises {A} e.

Definition and_then {A B : Type} (t : Try A) (k : A -> Try B) : Try B :=
  match t with
  | Returns a => k a
  | Raises e => Raises e
  end.

Definition type_name_of (v : json) : string :=
  match v with
  | JNull => "NoneType"
  | JBool _ => "bool"
  | JInt _ => "int"
  | JFloat _ => "float"
  | JStr _ => "str"
  | JList _ => "list"
  | JDict _ => "dict"
  end.

(** [data.get(key, default)]: only a dict has the method. *)
Definition json_get (data : json) (key : string) (default : json) : Try json :=
  match data with
  | JDict items =>
      Returns (match dict_lookup items key with
               | Some v => v
               | None => default
               end)
  | other => Raises (AttributeError (type_name_of other))
  end.

(** What [requests.get] hands back. *)
Record Response : Type := {
  status_code : Z;
  text : string;
  json_body : Try json (* [response.json()] *)
}.

Definition BASE_URL : string := "https://api.clashroyale.com/v1".

Section ApiClient.

(** The value of CR_API_KEY when the module is loaded, and the network:
    [requests_get url headers params] stands for
    [requests.get(url, headers=..., params=..., timeout=10)]. *)
Variable CR_API_KEY : option string.
Variable requests_get :
  string -> list (string * string) -> list (string * json) -> Try Response.
(** [str(data)] as [print] shows it. *)
Variable repr : json -> string.

Definition _get_headers : Try (list (string * string)) :=
  if negb (opt_truthy CR_API_KEY) then
    Raises (RuntimeError "CR_API_KEY is not set. Please add it to your .env file.")
  else
    Returns [("Authorization",
              "Bearer " ++ match CR_API_KEY with Some k => k | None => "None" end)].

Definition cr_get (path : string) (params : list (string * json)) : Try json :=
  let url := BASE_URL ++ path in
  and_then _get_headers (fun headers =>
  and_then (requests_get url headers params) (fun response =>
  if negb (status_code response =? 200) then
    Raises (RuntimeError ("Clash Royale API error "
                          ++ str_of_int (status_code response) ++ ": "
                          ++ text response))
  else json_body response)).

Definition get_global_top_players (limit : Z) : Try json :=
  let params := [("limit", JInt limit)] in
  let path := "/locations/global/pathoflegend/players" in
  cr_get path params.

(** src/api/players.py; the lines printed come with the value. *)
Definition fetch_top_players (limit : Z) : Try (list string * json) :=
  and_then (get_global_top_players limit) (fun data =>
  if negb (json_truthy data) then
    Returns (["ERROR: get_global_top_players() returned empty response."],
             JList [])
  else
    and_then (json_get data "items" (JList [])) (fun items =>
    if negb (json_truthy items) then
      Returns (["WARNING: No players found in 'items'. Full response:";
                repr data], JList [])
    else Returns ([], items))).

(** src/api/battles.py *)
Definition get_player_battlelog (player_tag : string) : Try json :=
  let normalized := normalize_player_tag player_tag in
  let encoded_tag := encode_first_hash normalized in
  and_then (cr_get ("/players/" ++ encoded_tag ++ "/battlelog") []) (fun data =>
  match data with
  | JList _ => Returns data
  | _ => json_get data "items" (JList [])
  end).

End ApiClient.

(** A network that answers every request with status 200 and the given
    body, and one that answers 404. *)
Definition answers_with (body : json) :
  string -> list (string * string) -> list (string * json) -> Try Response :=
  fun _ _ _ => Returns {| status_code := 200; text := EmptyString;
                          json_body := Returns body |}.

Definition answers_404 :
  string -> list (string * string) -> list (string * json) -> Try Response :=
  fun _ _ _ => Returns {| status_code := 404; text := "notFound";
                          json_body := Returns JNull |}.

(** A network that answers with the body at one URL and 404 at every
    other. *)
Definition answers_only_at (url : string) (body : json) :
  string -> list (string * string) -> list (string * json) -> Try Response :=
  fun u headers params =>
    if String.eqb u url then answers_with body u headers params
    else answers_404 u headers params.

(* ------------------------------------------------------------------ *)
(** ** Division of integers stays in range *)

Lemma digits2_pos_size (p : positive) : digits2_pos p = Pos.size p.
Proof. induction p; simpl; congruence. Qed.

Lemma Zdigits2_le (m k : Z) : 0 <= m < 2 ^ k -> 0 <= k -> Zdigits2 m <= k.
Proof.
  intros [Hm Hlt] Hk. destruct m as [|p|p]; simpl; try lia.
  assert (Z.log2 (Zpos p) < k) by (apply Z.log2_lt_pow2; lia).
  assert (Zpos (digits2_pos p) = Z.log2 (Zpos p) + 1); [|lia].
  rewrite digits2_pos_size. destruct p; simpl; lia.
Qed.

Lemma shr_1_m (mrs : shr_record) :
  0 <= shr_m mrs -> shr_m (shr_1 mrs) = shr_m mrs / 2.
Proof.
  destruct mrs as [m r s]; simpl. intros Hm.
  destruct m as [|[p|p|]|p]; simpl; try lia; try reflexivity.
  - rewrite Pos2Z.inj_xI. apply (Z.div_unique _ _ _ 1); lia.
  - rewrite Pos2Z.inj_xO. apply (Z.div_unique _ _ _ 0); lia.
Qed.

Lemma iter_shr_1_m (p : positive) : forall mrs,
  0 <= shr_m mrs ->
  shr_m (iter_pos shr_1 p mrs) = shr_m mrs / 2 ^ Zpos p.
Proof.
  assert (Hnn : forall mrs, 0 <= shr_m mrs -> 0 <= shr_m (shr_1 mrs)).
  { intros mrs H. rewrite shr_1_m by exact H. apply Z.div_pos; lia. }
  induction p as [p IH|p IH|]; intros mrs Hm; simpl iter_pos.
  - assert (H1 := Hnn _ Hm).
    assert (H2 : 0 <= shr_m (iter_pos shr_1 p (shr_1 mrs))).
    { rewrite IH by exact H1. apply Z.div_pos; lia. }
    rewrite (IH _ H2), (IH _ H1), shr_1_m by exact Hm.
    rewrite !Z.div_div by lia. f_equal.
    replace (Zpos p~1) with (Zpos p + Zpos p + 1) by lia.
    rewrite !Z.pow_add_r by lia. change (2 ^ 1) with 2. ring.
  - assert (H2 : 0 <= shr_m (iter_pos shr_1 p mrs)).
    { rewrite IH by exact Hm. apply Z.div_pos; lia. }
    rewrite (IH _ H2), (IH _ Hm).
    rewrite !Z.div_div by lia. f_equal.
    replace (Zpos p~0) with (Zpos p + Zpos p) by lia.
    rewrite Z.pow_add_r by lia. ring.
  - rewrite shr_1_m by exact Hm. reflexivity.
Qed.

Lemma shr_record_of_loc_m (m : Z) (l : location) :
  shr_m (shr_record_of_loc m l) = m.
Proof. destruct l as [|[ | | ]]; reflexivity. Qed.

(** One call of [shr_fexp] keeps a mantissa below [2^(K - e)]. *)
Lemma shr_fexp_bound (K m e : Z) (l : location) :
  0 <= m < 2 ^ (K - e) -> e <= K - 53 -> -1021 <= K ->
  let '(mrs, e') := shr_fexp prec emax m e l in
  0 <= shr_m mrs < 2 ^ (K - e') /\ e' <= K - 53.
Proof.
  intros Hm He HK. unfold shr_fexp, shr.
  assert (Hd : Zdigits2 m <= K - e) by (apply Zdigits2_le; lia).
  assert (Hf : fexp prec emax (Zdigits2 m + e) <= K - 53)
    by (unfold fexp, emin, prec, emax; lia).
  destruct (fexp prec emax (Zdigits2 m + e) - e) as [|p|p] eqn:En;
    try (rewrite shr_record_of_loc_m; split; [exact Hm | exact He]).
  rewrite iter_shr_1_m by (rewrite shr_record_of_loc_m; lia).
  rewrite shr_record_of_loc_m. split; [|lia]. split.
  - apply Z.div_pos; lia.
  - apply Z.div_lt_upper_bound; [lia|].
    rewrite <- Z.pow_add_r by lia.
    replace (Zpos p + (K - (e + Zpos p))) with (K - e) by lia. lia.
Qed.

Lemma round_nearest_even_le (m : Z) (l : location) :
  m <= round_nearest_even m l <= m + 1.
Proof. destruct l as [|[ | | ]]; simpl; try lia. destruct (Z.even m); lia. Qed.

Lemma binary_round_aux_finite (K : Z) (sx : bool) (m e : Z) (l : location) :
  0 <= m < 2 ^ (K - e) -> e <= K - 53 -> -1021 <= K <= 1023 ->
  is_infinity (binary_round_aux prec emax sx m e l) = false.
Proof.
  intros Hm He HK. unfold binary_round_aux.
  assert (H1 := @shr_fexp_bound K m e l Hm He ltac:(lia)).
  destruct (shr_fexp prec emax m e l) as [mrs' e'].
  destruct H1 as [Hm' He'].
  set (m1 := round_nearest_even (shr_m mrs') (loc_of_shr_record mrs')).
  assert (Hr := round_nearest_even_le (shr_m mrs') (loc_of_shr_record mrs')).
  fold m1 in Hr.
  assert (Hm1 : 0 <= m1 < 2 ^ (K + 1 - e')).
  { replace (K + 1 - e') with (Z.succ (K - e')) by lia.
    rewrite Z.pow_succ_r by lia. lia. }
  assert (H2 := @shr_fexp_bound (K + 1) m1 e' loc_Exact Hm1 ltac:(lia) ltac:(lia)).
  destruct (shr_fexp prec emax m1 e' loc_Exact) as [mrs'' e''].
  destruct H2 as [_ He''].
  destruct (shr_m mrs''); try reflexivity.
  replace (e'' <=? emax - prec) with true; [reflexivity|].
  symmetry. apply Z.leb_le. unfold emax, prec. lia.
Qed.

Lemma SFdiv_int_finite (pa pb : positive) (sa sb : bool) :
  Zpos pa < 2 ^ 1000 * Zpos pb ->
  is_infinity (SFdiv prec emax (S754_finite sa pa 0) (S754_finite sb pb 0)) = false.
Proof.
  intros Hab. unfold SFdiv, SFdiv_core_binary.
  set (e' := Z.min _ _).
  assert (He' : e' <= 0) by (unfold e'; lia).
  set (m' := match 0 - 0 - e' with Z0 => _ | Zpos _ => _ | Zneg _ => _ end).
  assert (Hm' : m' = Zpos pa * 2 ^ (- e')).
  { unfold m'. destruct (0 - 0 - e') as [|p|p] eqn:Es.
    - replace (- e') with 0 by lia. simpl. lia.
    - rewrite Z.shiftl_mul_pow2 by lia. f_equal. f_equal. lia.
    - lia. }
  clearbody m' e'.
  destruct (Z.div_eucl m' (Zpos pb)) as [q r] eqn:Eq.
  assert (Hq : q = m' / Zpos pb) by (unfold Z.div; rewrite Eq; reflexivity).
  apply (@binary_round_aux_finite 1000); try lia.
  subst q m'. split.
  - apply Z.div_pos; [|lia]. apply Z.mul_nonneg_nonneg; [lia|]. apply Z.pow_nonneg; lia.
  - apply Z.div_lt_upper_bound; [lia|].
    replace (1000 - e') with (1000 + - e') by lia.
    rewrite Z.pow_add_r by lia.
    assert (0 < 2 ^ (- e')) by (apply Z.pow_pos_nonneg; lia).
    nia.
Qed.

(** [a / b] returns a float whenever the quotient is below [2^1000] in
    absolute value. *)
Lemma int_true_div_ok (a b : Z) :
  b <> 0 -> Z.abs a < 2 ^ 1000 * Z.abs b ->
  exists q, int_true_div a b = Ok q.
Proof.
  intros Hb Hab. unfold int_true_div.
  replace (b =? 0) with false by (symmetry; apply Z.eqb_neq; exact Hb).
  assert (Hfin : is_infinity (SFdiv prec emax (float_of_int a) (float_of_int b)) = false).
  { destruct a as [|pa|pa], b as [|pb|pb]; try lia; try reflexivity;
      apply SFdiv_int_finite; simpl in Hab; lia. }
  destruct (SFdiv prec emax (float_of_int a) (float_of_int b)); try discriminate;
    eexists; reflexivity.
Qed.

(* ------------------------------------------------------------------ *)
(** ** How close the float quotient is *)

Lemma sum_uses_fold (t : list stats_row) :
  sum_uses t = fold_right Z.add 0 (map uses t).
Proof. destruct t; reflexivity. Qed.

Lemma sum_uses_filter_bounds (f : stats_row -> bool) (t : list stats_row) :
  Forall (fun r => 0 <= uses r) t ->
  0 <= sum_uses (filter f t) <= sum_uses t.
Proof.
  rewrite !sum_uses_fold. induction 1 as [|r t Hr _ IH]; simpl; [lia|].
  destruct (f r); simpl; lia.
Qed.

Lemma int_true_div_zero (b : Z) :
  b <> 0 -> int_true_div 0 b = Ok (S754_zero (b <? 0)).
Proof.
  intros Hb. unfold int_true_div.
  replace (b =? 0) with false by (symmetry; apply Z.eqb_neq; exact Hb).
  destruct b; [contradiction| |]; reflexivity.
Qed.

Lemma dyadic_compare_scaled (E : Z) (m1 : positive) (e1 : Z) (m2 : positive) (e2 : Z) :
  E <= e1 -> E <= e2 ->
  dyadic_compare m1 e1 m2 e2
  = Z.compare (Zpos m1 * 2 ^ (e1 - E)) (Zpos m2 * 2 ^ (e2 - E)).
Proof.
  intros H1 H2. unfold dyadic_compare.
  set (e := Z.min e1 e2).
  assert (He : E <= e /\ e <= e1 /\ e <= e2) by (unfold e; lia).
  rewrite !Z.shiftl_mul_pow2 by lia.
  replace (e1 - E) with ((e1 - e) + (e - E)) by lia.
  replace (e2 - E) with ((e2 - e) + (e - E)) by lia.
  rewrite !Z.pow_add_r by lia. rewrite !Z.mul_assoc.
  assert (Hp : 0 < 2 ^ (e - E)) by (apply Z.pow_pos_nonneg; lia).
  apply Zmult_compare_compat_r. lia.
Qed.

Lemma Zdigits2_gt (m : Z) : 0 < m -> m < 2 ^ Zdigits2 m.
Proof.
  intros Hm. destruct m as [|p|p]; try lia. simpl Zdigits2.
  assert (Hd : Zpos (digits2_pos p) = Z.succ (Z.log2 (Zpos p))).
  { rewrite digits2_pos_size. destruct p; simpl; lia. }
  rewrite Hd. apply Z.log2_spec. lia.
Qed.

Lemma shr_fexp_value (m e : Z) (l : location) :
  0 <= m ->
  exists mrs e1,
    shr_fexp prec emax m e l = (mrs, e1) /\
    e1 = Z.max e (fexp prec emax (Zdigits2 m + e)) /\
    shr_m mrs = m / 2 ^ (e1 - e).
Proof.
  intros Hm. unfold shr_fexp, shr.
  destruct (fexp prec emax (Zdigits2 m + e) - e) as [|p|p] eqn:En.
  - do 2 eexists. split; [reflexivity|]. split; [lia|].
    rewrite shr_record_of_loc_m, Z.sub_diag. simpl. symmetry. apply Z.div_1_r.
  - do 2 eexists. split; [reflexivity|]. split; [lia|].
    rewrite iter_shr_1_m by (rewrite shr_record_of_loc_m; lia).
    rewrite shr_record_of_loc_m. f_equal. f_equal. lia.
  - do 2 eexists. split; [reflexivity|]. split; [lia|].
    rewrite shr_record_of_loc_m, Z.sub_diag. simpl. symmetry. apply Z.div_1_r.
Qed.

Lemma binary_round_aux_value (m e : Z) (l : location) :
  0 <= m ->
  exists m1 e1 m2 e2,
    e1 = Z.max e (fexp prec emax (Zdigits2 m + e)) /\
    m / 2 ^ (e1 - e) <= m1 <= m / 2 ^ (e1 - e) + 1 /\
    e2 = Z.max e1 (fexp prec emax (Zdigits2 m1 + e1)) /\
    m2 = m1 / 2 ^ (e2 - e1) /\
    binary_round_aux prec emax false m e l =
      match m2 with
      | Z0 => S754_zero false
      | Zpos p => if e2 <=? emax - prec then S754_finite false p e2
                  else S754_infinity false
      | Zneg _ => S754_nan
      end.
Proof.
  intros Hm. unfold binary_round_aux.
  destruct (@shr_fexp_value m e l Hm) as (mrs' & e1 & -> & He1 & Hm').
  set (m1 := round_nearest_even (shr_m mrs') (loc_of_shr_record mrs')).
  assert (Hr := round_nearest_even_le (shr_m mrs') (loc_of_shr_record mrs')).
  fold m1 in Hr. rewrite Hm' in Hr.
  assert (H0 : 0 <= m / 2 ^ (e1 - e)) by (apply Z.div_pos; [lia|apply Z.pow_pos_nonneg; lia]).
  destruct (@shr_fexp_value m1 e1 loc_Exact ltac:(lia)) as (mrs'' & e2 & -> & He2 & Hm'').
  exists m1, e1, (shr_m mrs''), e2. repeat split; try assumption; try lia.
Qed.

(** The value kept through the two shifts and the rounding. *)
Lemma round_chain_bound (A B m n m1 n2 m2 : Z) :
  0 < B -> 0 <= n -> 0 <= n2 -> 0 <= m ->
  m * B <= A < (m + 1) * B ->
  m / 2 ^ n <= m1 <= m / 2 ^ n + 1 ->
  m2 = m1 / 2 ^ n2 ->
  (m2 - 1) * (2 ^ (n + n2) * B) <= A < (m2 + 1) * (2 ^ (n + n2) * B).
Proof.
  intros HB Hn Hn2 Hm HA Hm1 ->.
  rewrite Z.pow_add_r by lia.
  set (P := 2 ^ n). set (P2 := 2 ^ n2).
  assert (HP : 0 < P) by (apply Z.pow_pos_nonneg; lia).
  assert (HP2 : 0 < P2) by (apply Z.pow_pos_nonneg; lia).
  fold P in Hm1.
  set (m' := m / P) in *.
  assert (Hd1 : m' * P <= m < (m' + 1) * P).
  { unfold m'. split.
    - rewrite Z.mul_comm. apply Z.mul_div_le. exact HP.
    - rewrite Z.mul_comm. apply Z.mul_succ_div_gt. exact HP. }
  set (m2 := m1 / P2).
  assert (Hd2 : m2 * P2 <= m1 < (m2 + 1) * P2).
  { unfold m2. split.
    - rewrite Z.mul_comm. apply Z.mul_div_le. exact HP2.
    - rewrite Z.mul_comm. apply Z.mul_succ_div_gt. exact HP2. }
  split.
  - (* lower *)
    assert (H1 : (m2 * P2 - 1) * P <= m) by nia.
    assert (H2 : (m2 - 1) * (P * P2) <= (m2 * P2 - 1) * P) by nia.
    assert (H3 : (m2 - 1) * (P * P2) * B <= m * B) by nia.
    lia.
  - assert (H1 : m + 1 <= (m2 + 1) * P2 * P) by nia.
    assert (H3 : (m + 1) * B <= (m2 + 1) * P2 * P * B) by nia.
    lia.
Qed.

Lemma fexp_le (k b : Z) : k <= b -> -1021 <= b -> fexp prec emax k <= b - 53.
Proof. intros. unfold fexp, emin, prec, emax. lia. Qed.

Lemma pow2_cancel (x y c T : Z) :
  0 < T -> x * T <= y * T < c * T -> x <= y < c.
Proof. intros HT [H1 H2]. split; nia. Qed.

Lemma SFdiv_near (pa pb : positive) :
  Zpos pa <= 2 * Zpos pb ->
  exists m e,
    SFdiv prec emax (S754_finite false pa 0) (S754_finite false pb 0)
    = float_parts m e /\
    0 <= m /\ e <= -51 /\
    Z.abs (m * Zpos pb - Zpos pa * 2 ^ (- e)) <= Zpos pb.
Proof.
  intros Hab. unfold SFdiv, SFdiv_core_binary. cbn [xorb].
  assert (Hd : Zdigits2 (Zpos pa) <= Zdigits2 (Zpos pb) + 1).
  { assert (Hpb := @Zdigits2_gt (Zpos pb) ltac:(lia)).
    assert (0 < Zdigits2 (Zpos pb)) by (simpl; lia).
    apply Zdigits2_le; [|lia]. rewrite Z.pow_add_r by lia.
    change (2 ^ 1) with 2. lia. }
  set (e' := Z.min _ _).
  assert (He' : e' <= -52).
  { unfold e'. assert (Hf := @fexp_le (Zdigits2 (Zpos pa) + 0 - (Zdigits2 (Zpos pb) + 0)) 1
                               ltac:(lia) ltac:(lia)). lia. }
  set (m' := match 0 - 0 - e' with Z0 => _ | Zpos _ => _ | Zneg _ => _ end).
  assert (Hm' : m' = Zpos pa * 2 ^ (- e')).
  { unfold m'. destruct (0 - 0 - e') as [|p|p] eqn:Es; try lia.
    rewrite Z.shiftl_mul_pow2 by lia. f_equal. f_equal. lia. }
  clearbody m' e'.
  set (s := - e') in *.
  assert (Hs : 52 <= s) by (unfold s; lia).
  assert (HS : 0 < 2 ^ s) by (apply Z.pow_pos_nonneg; lia).
  destruct (Z.div_eucl m' (Zpos pb)) as [q r] eqn:Eq.
  assert (Hq : q = m' / Zpos pb) by (unfold Z.div; rewrite Eq; reflexivity).
  assert (Hq0 : 0 <= q) by (rewrite Hq; apply Z.div_pos; nia).
  assert (Hqb : q * Zpos pb <= m' < (q + 1) * Zpos pb).
  { rewrite Hq. split.
    - rewrite Z.mul_comm. apply Z.mul_div_le. lia.
    - rewrite Z.mul_comm. apply Z.mul_succ_div_gt. lia. }
  assert (Hq2 : q <= 2 * 2 ^ s) by nia.
  destruct (@binary_round_aux_value q e' (new_location (Zpos pb) r) Hq0)
    as (m1 & e1 & m2 & e2 & He1 & Hm1 & He2 & Hm2 & ->).
  (* exponents *)
  assert (Hdq : Zdigits2 q <= s + 2).
  { apply Zdigits2_le; [|lia]. split; [lia|].
    rewrite Z.pow_add_r by lia. change (2 ^ 2) with 4. lia. }
  assert (Hf1 := @fexp_le (Zdigits2 q + e') 2 ltac:(unfold s in *; lia) ltac:(lia)).
  assert (He1b : e' <= e1 <= -51) by lia.
  set (n := e1 - e') in *.
  assert (Hn : 0 <= n <= s - 51) by (unfold n, s in *; lia).
  assert (HP : 0 < 2 ^ n) by (apply Z.pow_pos_nonneg; lia).
  assert (Hqn : q / 2 ^ n <= 2 ^ (s + 1 - n)).
  { apply Z.div_le_upper_bound; [lia|].
    rewrite <- Z.pow_add_r by lia. replace (n + (s + 1 - n)) with (s + 1) by lia.
    rewrite Z.pow_add_r by lia. change (2 ^ 1) with 2. lia. }
  assert (Hqn0 : 0 <= q / 2 ^ n) by (apply Z.div_pos; lia).
  assert (Hpw : 2 <= 2 ^ (s + 1 - n)).
  { change 2 with (2 ^ 1) at 1. apply Z.pow_le_mono_r; lia. }
  assert (Hdm1 : Zdigits2 m1 <= s + 2 - n).
  { apply Zdigits2_le; [|lia]. split; [lia|].
    replace (s + 2 - n) with (s + 1 - n + 1) by lia.
    rewrite Z.pow_add_r by lia. change (2 ^ 1) with 2. lia. }
  assert (Hf2 := @fexp_le (Zdigits2 m1 + e1) 2 ltac:(unfold n, s in *; lia) ltac:(lia)).
  assert (He2b : e1 <= e2 <= -51) by lia.
  assert (Hm20 : 0 <= m2).
  { rewrite Hm2. apply Z.div_pos; [lia|apply Z.pow_pos_nonneg; lia]. }
  exists m2, e2.
  replace (e2 <=? emax - prec) with true
    by (symmetry; apply Z.leb_le; unfold emax, prec; lia).
  split; [destruct m2; try reflexivity; lia|].
  split; [exact Hm20|]. split; [lia|].
  assert (Hchain := @round_chain_bound (Zpos pa * 2 ^ s) (Zpos pb) q n m1 (e2 - e1) m2
                      ltac:(lia) ltac:(lia) ltac:(lia) Hq0
                      ltac:(rewrite <- Hm'; exact Hqb) Hm1 Hm2).
  replace (n + (e2 - e1)) with (e2 - e') in Hchain by (unfold n; lia).
  assert (Hsplit : 2 ^ s = 2 ^ (- e2) * 2 ^ (e2 - e')).
  { rewrite <- Z.pow_add_r by (unfold s in *; lia). f_equal. unfold s. lia. }
  rewrite Hsplit in Hchain.
  assert (HT : 0 < 2 ^ (e2 - e')) by (apply Z.pow_pos_nonneg; lia).
  assert (Hfin : (m2 - 1) * Zpos pb <= Zpos pa * 2 ^ (- e2) < (m2 + 1) * Zpos pb).
  { apply (@pow2_cancel _ _ _ (2 ^ (e2 - e')) HT). lia. }
  lia.
Qed.

Lemma int_true_div_near (a b : Z) :
  0 <= a -> 0 < b -> a <= 2 * b ->
  exists m e,
    int_true_div a b = Ok (float_parts m e) /\
    0 <= m /\ e <= -51 /\
    Z.abs (m * b - a * 2 ^ (- e)) <= b.
Proof.
  intros Ha Hb Hab. destruct a as [|pa|pa]; [|destruct b as [|pb|pb]|]; try lia.
  - exists 0, (-51). rewrite int_true_div_zero by lia.
    replace (b <? 0) with false by (symmetry; apply Z.ltb_ge; lia).
    repeat split; try reflexivity; lia.
  - destruct (@SFdiv_near pa pb Hab) as (m & e & Hdiv & Hm & He & Herr).
    exists m, e. split; [|auto].
    unfold int_true_div. cbn [Z.eqb float_of_int]. rewrite Hdiv.
    destruct m; try reflexivity; lia.
Qed.

Lemma round_half_even_div_bound (n d : Z) :
  0 < d -> Z.abs (2 * (round_half_even_div n d * d - n)) <= d.
Proof.
  intros Hd. unfold round_half_even_div.
  assert (Hdiv := Z.div_mod n d ltac:(lia)).
  assert (Hmod := Z.mod_pos_bound n d Hd).
  destruct (Z.compare_spec (2 * (n mod d)) d); [destruct (Z.even (n / d))| |];
    nia.
Qed.

Lemma hundredths_bound (p : positive) (e : Z) :
  e < 0 ->
  Z.abs (2 * (hundredths p e * 2 ^ (- e) - 100 * Zpos p)) <= 2 ^ (- e).
Proof.
  intros He. unfold hundredths.
  replace (0 <=? e) with false by (symmetry; apply Z.leb_gt; exact He).
  rewrite Z.shiftl_mul_pow2 by lia. rewrite Z.mul_1_l.
  apply round_half_even_div_bound. apply Z.pow_pos_nonneg; lia.
Qed.

(** The ratio printed by a passing cross-table check. *)
Lemma ratio_2f_near (a b : Z) :
  0 < b -> b <= a <= 2 * b ->
  exists ratio h,
    int_true_div a b = Ok ratio /\
    format_2f ratio = fixed2 false h /\
    Z.abs (h * b - 100 * a) < b.
Proof.
  intros Hb Hab.
  destruct (@int_true_div_near a b ltac:(lia) Hb ltac:(lia))
    as (m & e & Hdiv & Hm & He & Herr).
  set (D := 2 ^ (- e)) in *.
  assert (HD : 2 ^ 51 <= D) by (apply Z.pow_le_mono_r; lia).
  assert (H51 : 2 ^ 51 = 2251799813685248) by reflexivity.
  assert (Hmpos : 0 < m) by nia.
  destruct m as [|p|p]; try lia. cbn [float_parts] in Hdiv.
  exists (S754_finite false p e), (hundredths p e).
  split; [exact Hdiv|]. split; [reflexivity|].
  assert (Hh := @hundredths_bound p e ltac:(lia)). fold D in Hh.
  set (h := hundredths p e) in *.
  assert (Hprod : Z.abs (2 * ((h * b - 100 * a) * D)) <= D * b + 200 * b).
  { replace (2 * ((h * b - 100 * a) * D))
      with (2 * (h * D - 100 * Zpos p) * b + 200 * (Zpos p * b - a * D)) by ring.
    nia. }
  nia.
Qed.

Lemma SFmul_100_near (p : positive) (e : Z) :
  e <= -51 -> Zpos p <= 2 * 2 ^ (- e) ->
  exists mw ew,
    SFmul prec emax (S754_finite false p e) float_100 = float_parts mw ew /\
    0 <= mw /\ e + 2 <= ew <= -44 /\
    (mw - 1) * 2 ^ (ew - (e + 2)) <= 25 * Zpos p < (mw + 1) * 2 ^ (ew - (e + 2)).
Proof.
  intros He Hp. unfold SFmul, float_100. cbn [xorb].
  set (D := 2 ^ (- e)) in *.
  assert (HD : 0 < D) by (apply Z.pow_pos_nonneg; lia).
  destruct (@binary_round_aux_value (Zpos (p * 25)) (e + 2) loc_Exact ltac:(lia))
    as (m1 & e1 & m2 & e2 & He1 & Hm1 & He2 & Hm2 & ->).
  assert (Hq : Zpos (p * 25) = 25 * Zpos p) by lia.
  rewrite Hq in *.
  assert (Hdq : Zdigits2 (25 * Zpos p) <= 6 - e).
  { apply Zdigits2_le; [|lia]. split; [lia|].
    replace (6 - e) with (6 + - e) by lia. rewrite Z.pow_add_r by lia.
    fold D. change (2 ^ 6) with 64. lia. }
  assert (Hf1 := @fexp_le (Zdigits2 (25 * Zpos p) + (e + 2)) 8 ltac:(lia) ltac:(lia)).
  assert (He1b : e + 2 <= e1 <= -45) by lia.
  set (n := e1 - (e + 2)) in *.
  assert (Hn : 0 <= n <= - e - 47) by (unfold n; lia).
  assert (HP : 0 < 2 ^ n) by (apply Z.pow_pos_nonneg; lia).
  assert (Hqn : 25 * Zpos p / 2 ^ n <= 2 ^ (6 - e - n)).
  { apply Z.div_le_upper_bound; [lia|].
    rewrite <- Z.pow_add_r by lia. replace (n + (6 - e - n)) with (6 + - e) by lia.
    rewrite Z.pow_add_r by lia. fold D. change (2 ^ 6) with 64. lia. }
  assert (Hqn0 : 0 <= 25 * Zpos p / 2 ^ n) by (apply Z.div_pos; lia).
  assert (Hpw : 2 <= 2 ^ (6 - e - n)).
  { change 2 with (2 ^ 1) at 1. apply Z.pow_le_mono_r; lia. }
  assert (Hdm1 : Zdigits2 m1 <= 7 - e - n).
  { apply Zdigits2_le; [|lia]. split; [lia|].
    replace (7 - e - n) with (6 - e - n + 1) by lia.
    rewrite Z.pow_add_r by lia. change (2 ^ 1) with 2. lia. }
  assert (Hf2 := @fexp_le (Zdigits2 m1 + e1) 9 ltac:(unfold n in *; lia) ltac:(lia)).
  assert (He2b : e1 <= e2 <= -44) by lia.
  assert (Hm20 : 0 <= m2).
  { rewrite Hm2. apply Z.div_pos; [lia|apply Z.pow_pos_nonneg; lia]. }
  exists m2, e2.
  replace (e2 <=? emax - prec) with true
    by (symmetry; apply Z.leb_le; unfold emax, prec; lia).
  split; [destruct m2; try reflexivity; lia|].
  split; [exact Hm20|]. split; [lia|].
  assert (Hchain := @round_chain_bound (25 * Zpos p) 1 (25 * Zpos p) n m1 (e2 - e1) m2
                      ltac:(lia) ltac:(lia) ltac:(lia) ltac:(lia)
                      ltac:(lia) Hm1 Hm2).
  replace (n + (e2 - e1)) with (e2 - (e + 2)) in Hchain by (unfold n; lia).
  rewrite !Z.mul_1_r in Hchain. exact Hchain.
Qed.

Lemma format_2f_parts (m e : Z) :
  0 <= m -> e < 0 ->
  exists h,
    format_2f (float_parts m e) = fixed2 false h /\
    Z.abs (2 * (h * 2 ^ (- e) - 100 * m)) <= 2 ^ (- e).
Proof.
  intros Hm He. destruct m as [|p|p]; try lia.
  - exists 0. split; [reflexivity|].
    assert (0 < 2 ^ (- e)) by (apply Z.pow_pos_nonneg; lia). lia.
  - exists (hundredths p e). split; [reflexivity|]. apply hundredths_bound, He.
Qed.

(** The percentage printed by the unresolved-label check when no row is
    negative. *)
Lemma pct_near (a b : Z) (ratio : float) :
  0 <= a <= b -> 0 < b ->
  int_true_div a b = Ok ratio ->
  exists P,
    format_2pct ratio = fixed2 false P ++ "%" /\
    Z.abs (P * b - 10000 * a) < b.
Proof.
  intros Ha Hb Hratio.
  destruct (@int_true_div_near a b ltac:(lia) Hb ltac:(lia))
    as (m & e & Hdiv & Hm & He & Herr).
  rewrite Hdiv in Hratio. injection Hratio as <-.
  set (D := 2 ^ (- e)) in *.
  assert (HD : 2 ^ 51 <= D) by (apply Z.pow_le_mono_r; lia).
  assert (H51 : 2 ^ 51 = 2251799813685248) by reflexivity.
  unfold format_2pct.
  destruct m as [|p|p]; try lia.
  - exists 0. split; [reflexivity|]. nia.
  - cbn [float_parts].
    assert (Hp : Zpos p <= 2 * D) by nia.
    destruct (@SFmul_100_near p e He Hp) as (mw & ew & -> & Hmw & Hew & Hchain).
    destruct (@format_2f_parts mw ew Hmw ltac:(lia)) as (P & -> & HP).
    exists P. split; [reflexivity|].
    set (T := 2 ^ (ew - (e + 2))) in *.
    set (Dw := 2 ^ (- ew)) in *.
    assert (HT : 1 <= T).
    { unfold T. change 1 with (2 ^ 0). apply Z.pow_le_mono_r; lia. }
    assert (HDw : 2 ^ 44 <= Dw) by (apply Z.pow_le_mono_r; lia).
    assert (H44 : 2 ^ 44 = 17592186044416) by reflexivity.
    assert (HDeq : D = 4 * T * Dw).
    { unfold D, T, Dw. change 4 with (2 ^ 2).
      rewrite <- !Z.pow_add_r by lia. f_equal. lia. }
    (* P * D within 2 T Dw + 400 T of 10000 m *)
    assert (H1 : Z.abs (P * D - 10000 * Zpos p) <= 2 * T * Dw + 400 * T).
    { rewrite HDeq.
      replace (P * (4 * T * Dw) - 10000 * Zpos p)
        with (2 * T * (2 * (P * Dw - 100 * mw)) + 400 * (T * mw - 25 * Zpos p))
        by ring.
      assert (Ha1 : Z.abs (2 * T * (2 * (P * Dw - 100 * mw))) <= 2 * T * Dw).
      { rewrite Z.abs_mul. rewrite (Z.abs_eq (2 * T)) by lia.
        apply Z.mul_le_mono_nonneg_l; lia. }
      assert (Ha2 : Z.abs (T * mw - 25 * Zpos p) <= T) by lia.
      lia. }
    assert (H2 : Z.abs ((P * b - 10000 * a) * D)
                 <= (2 * T * Dw + 400 * T) * b + 10000 * b).
    { replace ((P * b - 10000 * a) * D)
        with ((P * D - 10000 * Zpos p) * b + 10000 * (Zpos p * b - a * D)) by ring.
      assert (Ha1 : Z.abs ((P * D - 10000 * Zpos p) * b) <= (2 * T * Dw + 400 * T) * b).
      { rewrite Z.abs_mul. rewrite (Z.abs_eq b) by lia.
        apply Z.mul_le_mono_nonneg_r; lia. }
      lia. }
    assert (H3 : (2 * T * Dw + 400 * T) * b + 10000 * b < D * b).
    { rewrite HDeq. nia. }
    assert (H4 : Z.abs ((P * b - 10000 * a) * D) < b * D) by lia.
    rewrite Z.abs_mul in H4. rewrite (Z.abs_eq D) in H4 by lia.
    nia.
Qed.

(** The decision against a ceiling [mc * 2^ec]: outside a band of
    [2^-51] around the ceiling it is the comparison of the exact quotient
    [a / b] with the ceiling. *)
Lemma ceiling_band (a b : Z) (ratio : float) (mc : positive) (ec : Z) :
  0 <= a <= b -> 0 < b -> ec <= 0 ->
  int_true_div a b = Ok ratio ->
  ((Zpos mc * 2 ^ 51 + 2 ^ (- ec)) * b < a * 2 ^ (- ec) * 2 ^ 51 ->
   float_gt ratio (S754_finite false mc ec) = true) /\
  (a * 2 ^ (- ec) * 2 ^ 51 < (Zpos mc * 2 ^ 51 - 2 ^ (- ec)) * b ->
   float_gt ratio (S754_finite false mc ec) = false).
Proof.
  intros Ha Hb Hec Hratio.
  destruct (@int_true_div_near a b ltac:(lia) Hb ltac:(lia))
    as (m & e & Hdiv & Hm & He & Herr).
  rewrite Hdiv in Hratio. injection Hratio as <-.
  set (D := 2 ^ (- e)) in *. set (Dc := 2 ^ (- ec)) in *.
  assert (HD : 2 ^ 51 <= D) by (apply Z.pow_le_mono_r; lia).
  assert (HDc : 0 < Dc) by (apply Z.pow_pos_nonneg; lia).
  set (K := 2 ^ 51) in *.
  assert (HK : 0 < K) by reflexivity.
  destruct m as [|p|p]; try lia; cbn [float_parts float_gt].
  - split; [|reflexivity]. intros H. exfalso.
    assert (a * D <= b) by lia.
    assert (a * K <= b) by nia.
    assert (Dc * b < a * Dc * K) by nia.
    nia.
  - set (E := Z.min e ec).
    assert (HE : E <= e /\ E <= ec) by (unfold E; lia).
    rewrite (@dyadic_compare_scaled E p e mc ec ltac:(lia) ltac:(lia)).
    set (u := 2 ^ (e - E)). set (w := 2 ^ (ec - E)).
    assert (Hu : 0 < u) by (apply Z.pow_pos_nonneg; lia).
    assert (Hw : 0 < w) by (apply Z.pow_pos_nonneg; lia).
    assert (Huw : u * D = w * Dc).
    { unfold u, w, D, Dc. rewrite <- !Z.pow_add_r by lia. f_equal. lia. }
    assert (Hiff : Zpos p * u > Zpos mc * w <-> Zpos p * Dc > Zpos mc * D).
    { split; intros H.
      - assert (Zpos p * u * D > Zpos mc * w * D) by nia.
        assert (Zpos p * (w * Dc) > Zpos mc * D * w) by (rewrite <- Huw; lia).
        nia.
      - assert (Zpos p * Dc * w > Zpos mc * D * w) by nia.
        assert (Zpos p * (u * D) > Zpos mc * w * D) by (rewrite Huw; lia).
        nia. }
    split; intros H.
    + assert (Hgt : Zpos p * Dc > Zpos mc * D).
      { assert (H1 : a * D - b <= Zpos p * b) by lia.
        assert (H2 : (Zpos mc * K + Dc) * b * D < a * Dc * K * D) by nia.
        assert (H3 : Dc * b * K <= Dc * b * D) by nia.
        assert (H4 : Zpos mc * D * b * K < (a * D - b) * Dc * K) by nia.
        assert (H5 : Zpos mc * D * b < (a * D - b) * Dc) by nia.
        assert (H6 : (a * D - b) * Dc <= Zpos p * b * Dc) by nia.
        nia. }
      apply Hiff in Hgt.
      destruct (Z.compare_spec (Zpos p * u) (Zpos mc * w)); try reflexivity; lia.
    + assert (Hle : ~ (Zpos p * Dc > Zpos mc * D)).
      { intros Hgt.
        assert (H1 : Zpos p * b <= a * D + b) by lia.
        assert (H2 : a * Dc * K * D < (Zpos mc * K - Dc) * b * D) by nia.
        assert (H3 : Dc * b * K <= Dc * b * D) by nia.
        assert (H4 : (a * D + b) * Dc * K < Zpos mc * D * b * K) by nia.
        assert (H5 : (a * D + b) * Dc < Zpos mc * D * b) by nia.
        assert (H6 : Zpos p * b * Dc <= (a * D + b) * Dc) by nia.
        nia. }
      destruct (Z.compare_spec (Zpos p * u) (Zpos mc * w)) as [Hc|Hc|Hc];
        try reflexivity.
      exfalso. apply Hle, Hiff. lia.
Qed.

(* ------------------------------------------------------------------ *)
(** ** The error monad and the runner *)

Lemma bind_Ok_inv {A B : Type} (r : Result A) (k : A -> Result B) (b : B) :
  bind r k = Ok b -> exists a, r = Ok a /\ k a = Ok b.
Proof. destruct r as [a|e]; simpl; [eauto | discriminate]. Qed.

Lemma bind_Raise {A B : Type} (r : Result A) (k : A -> Result B) (e : exn) :
  r = Raise e -> bind r k = Raise e.
Proof. intros ->. reflexivity. Qed.

Ltac bind_inv H :=
  let a := fresh "c" in
  let Ha := fresh "Hc" in
  apply bind_Ok_inv in H; destruct H as (a & Ha & H).

(** [main] calls the checks of [catalog], in that order. *)
Lemma run_checks_run_all (conn : Conn) (args : Args) :
  run_checks conn args = run_all (catalog args) conn.
Proof.
  unfold run_checks, catalog; simpl.
  destruct (check_deck_cards_integrity conn); simpl; [|reflexivity].
  destruct (check_wins_uses_sanity conn); simpl; [|reflexivity].
  destruct (check_meta_not_empty conn); simpl; [|reflexivity].
  destruct (check_expected_topn_player_count conn (top_n args)); simpl;
    [|reflexivity].
  destruct (check_totals_sanity_topn_vs_meta conn); simpl; [|reflexivity].
  destruct (check_unknown_deck_type_explosion conn (max_unknown_ratio args));
    reflexivity.
Qed.

Lemma run_all_Ok_inv (cs : list (Conn -> Result CheckResult)) (conn : Conn) :
  forall rs, run_all cs conn = Ok rs -> Forall2 (fun c r => c conn = Ok r) cs rs.
Proof.
  induction cs as [|c cs IH]; simpl; intros rs H.
  - injection H as <-. constructor.
  - bind_inv H. bind_inv H. injection H as <-. constructor; auto.
Qed.

Lemma run_all_first_fault (pre post : list (Conn -> Result CheckResult))
    (c : Conn -> Result CheckResult) (conn : Conn) (e : exn) :
  Forall (fun k => is_ok (k conn) = true) pre ->
  c conn = Raise e ->
  run_all (List.app pre (c :: post)) conn = Raise e.
Proof.
  intros Hpre Hc. induction Hpre as [|k pre Hk _ IH]; simpl.
  - rewrite Hc. reflexivity.
  - destruct (k conn); [|discriminate]. simpl. rewrite IH. reflexivity.
Qed.

(* ------------------------------------------------------------------ *)
(** ** Each check on a snapshot *)

Lemma truthy_positive (z : Z) : truthy (Some z) && (z >? 0) = (z >? 0).
Proof.
  unfold truthy. destruct (Z.eqb_spec z 0) as [->|]; simpl; [reflexivity|].
  reflexivity.
Qed.

Lemma sql_count_nonneg {A : Type} (rows : list A) : 0 <= sql_count rows.
Proof. unfold sql_count. lia. Qed.

Lemma deck_check_returns (conn : Conn) (rows : list (string * Z)) :
  fetchall conn Q_bad_deck_groups = Ok rows ->
  check_deck_cards_integrity conn =
    Ok (match rows with
        | [] => mk_result "deck_cards: each deck_hash has exactly 8 cards" true
        | _ :: _ =>
            {| name := "deck_cards: each deck_hash has exactly 8 cards";
               ok := false;
               details := deck_details_header ++ join nl (map deck_line rows) |}
        end).
Proof.
  intros H. unfold check_deck_cards_integrity, _run_rows. rewrite H. simpl.
  destruct rows; reflexivity.
Qed.

(** The loop of the counters check, when every statement is answered
    with a count. *)
Lemma wins_uses_loop_counts (conn : Conn) (cnt : string -> Z)
    (ts : list (string * string * string)) :
  (forall t u w, In (t, u, w) ts ->
                 scalar conn (Q_count_bad t u w) = Ok (Some (cnt t))) ->
  forall bad,
    wins_uses_loop conn ts bad =
    Ok (List.app bad
          (map (fun x => bad_rows_reason (fst (fst x)) (cnt (fst (fst x))))
               (filter (fun x => cnt (fst (fst x)) >? 0) ts))).
Proof.
  induction ts as [|[[t u] w] ts IH]; intros Hans bad; simpl.
  - rewrite app_nil_r. reflexivity.
  - unfold _run_scalar. rewrite (Hans t u w) by (left; reflexivity).
    cbn [bind int_or_0]. rewrite truthy_positive.
    rewrite IH by (intros; apply Hans; right; assumption).
    destruct (cnt t >? 0); simpl; [rewrite <- app_assoc|]; reflexivity.
Qed.

Lemma wins_uses_loop_connect (s : Snapshot) :
  wins_uses_loop (connect s) tables [] =
  Ok (map table_reason (filter offending (named_tables s))).
Proof.
  set (cnt := fun t => match stats_table s t with
                       | Some rows => bad_count rows
                       | None => 0
                       end).
  rewrite (@wins_uses_loop_counts (connect s) cnt).
  - unfold tables, named_tables, offending, table_reason, cnt; simpl.
    repeat match goal with
           | |- context [if ?b then _ else _] => destruct b
           end; reflexivity.
  - intros t u w Hin. unfold tables in Hin; simpl in Hin.
    repeat (destruct Hin as [Hin|Hin];
            [injection Hin as <- <- <-; reflexivity|]).
    contradiction.
Qed.

Lemma counters_check_connect (s : Snapshot) :
  check_wins_uses_sanity (connect s) =
  Ok (match filter offending (named_tables s) with
      | [] => mk_result "wins/uses sanity (wins<=uses and non-negative)" true
      | _ :: _ =>
          {| name := "wins/uses sanity (wins<=uses and non-negative)";
             ok := false;
             details := join "; " (map table_reason
                                       (filter offending (named_tables s))) |}
      end).
Proof.
  unfold check_wins_uses_sanity. rewrite wins_uses_loop_connect. cbn [bind].
  destruct (filter offending (named_tables s)); reflexivity.
Qed.

Lemma meta_check_connect (s : Snapshot) :
  exists r, check_meta_not_empty (connect s) = Ok r.
Proof.
  unfold check_meta_not_empty; simpl.
  destruct (_ || _); eexists; reflexivity.
Qed.

Lemma expected_check_connect (s : Snapshot) (expected : option Z) :
  exists r, check_expected_topn_player_count (connect s) expected = Ok r.
Proof.
  destruct expected as [n|]; simpl; [|eexists; reflexivity].
  destruct (negb _); eexists; reflexivity.
Qed.

(** The cross-table check, statement by statement. *)
Lemma totals_check_connect (s : Snapshot) :
  let topn_obs := sum_uses (player_decks s) in
  let meta_obs := sum_uses (meta_deck_types s) in
  check_totals_sanity_topn_vs_meta (connect s) =
  if topn_obs =? 0 then
    Ok {| name := "totals sanity: meta_obs between topn_obs and 2*topn_obs";
          ok := false;
          details := "topn_obs (SUM(player_decks.uses)) is 0; did ETL write player_decks?" |}
  else if meta_obs <? topn_obs then
    Ok {| name := "totals sanity: meta_obs between topn_obs and 2*topn_obs";
          ok := false;
          details := "meta_obs < topn_obs (" ++ str_of_int meta_obs ++ " < "
                     ++ str_of_int topn_obs ++ ")" |}
  else if meta_obs >? 2 * topn_obs then
    Ok {| name := "totals sanity: meta_obs between topn_obs and 2*topn_obs";
          ok := false;
          details := "meta_obs > 2*topn_obs (" ++ str_of_int meta_obs ++ " > "
                     ++ str_of_int (2 * topn_obs) ++ ")" |}
  else
    ratio <- int_true_div meta_obs topn_obs ;;
    Ok {| name := "totals sanity: meta_obs between topn_obs and 2*topn_obs";
          ok := true;
          details := "topn_obs=" ++ str_of_int topn_obs ++ ", meta_obs="
                     ++ str_of_int meta_obs ++ ", ratio=" ++ format_2f ratio |}.
Proof. reflexivity. Qed.

Lemma totals_check_returns (s : Snapshot) :
  exists r, check_totals_sanity_topn_vs_meta (connect s) = Ok r.
Proof.
  rewrite totals_check_connect. cbv zeta.
  set (topn_obs := sum_uses (player_decks s)).
  set (meta_obs := sum_uses (meta_deck_types s)).
  destruct (Z.eqb_spec topn_obs 0); [eexists; reflexivity|].
  destruct (Z.ltb_spec meta_obs topn_obs); [eexists; reflexivity|].
  destruct (meta_obs >? 2 * topn_obs) eqn:Hgt; [eexists; reflexivity|].
  destruct (@int_true_div_ok meta_obs topn_obs) as [q Hq]; [assumption|lia|].
  rewrite Hq. eexists; reflexivity.
Qed.

Lemma unknown_check_connect (s : Snapshot) (ceiling : float) :
  let total := sum_uses (meta_deck_types s) in
  let unknown := sum_uses (unknown_rows (meta_deck_types s)) in
  check_unknown_deck_type_explosion (connect s) ceiling =
  if total =? 0 then
    Ok {| name := "deck_type sanity: unknown ratio";
          ok := false;
          details := "meta_deck_types total uses is 0" |}
  else
    ratio <- int_true_div unknown total ;;
    if float_gt ratio ceiling then
      Ok {| name := "deck_type sanity: unknown ratio";
            ok := false;
            details := "Unknown uses ratio too high: " ++ str_of_int unknown
                       ++ "/" ++ str_of_int total ++ " = " ++ format_2pct ratio
                       ++ " (max " ++ format_2pct ceiling ++ ")" |}
    else
      Ok {| name := "deck_type sanity: unknown ratio";
            ok := true;
            details := "Unknown ratio: " ++ str_of_int unknown ++ "/"
                       ++ str_of_int total ++ " = " ++ format_2pct ratio |}.
Proof. reflexivity. Qed.

Lemma unknown_check_returns (s : Snapshot) (ceiling : float) :
  Z.abs (sum_uses (unknown_rows (meta_deck_types s))) < 2 ^ 63 ->
  exists r, check_unknown_deck_type_explosion (connect s) ceiling = Ok r.
Proof.
  intros Hfit. rewrite unknown_check_connect. cbv zeta.
  set (total := sum_uses (meta_deck_types s)).
  set (unknown := sum_uses (unknown_rows (meta_deck_types s))) in *.
  destruct (Z.eqb_spec total 0); [eexists; reflexivity|].
  destruct (@int_true_div_ok unknown total) as [q Hq]; [assumption| |].
  - assert (2 ^ 63 < 2 ^ 1000) by (apply Z.pow_lt_mono_r; lia). nia.
  - rewrite Hq. simpl. destruct (float_gt q ceiling); eexists; reflexivity.
Qed.

(* ------------------------------------------------------------------ *)
(** ** The validation runner *)

(** C1.  On every snapshot the runner returns the results of the six
    checks of the catalog (deck cardinality, counters sanity, non-empty
    catalog, expected population size, cross-table bounded ratio,
    unresolved-label ratio), one each and in that order, whether they pass
    or fail: the list is made of what each check returns on its own.  The
    sum of [uses] under the placeholder label is taken to fit a 64-bit SQL
    integer, so that the unresolved-label ratio is a float. *)
Theorem C1_runner_returns_six_results_in_order :
  forall (s : Snapshot) (args : Args),
    Z.abs (sum_uses (unknown_rows (meta_deck_types s))) < 2 ^ 63 ->
    exists c1 c2 c3 c4 c5 c6 : CheckResult,
      run_checks (connect s) args = Ok [c1; c2; c3; c4; c5; c6] /\
      check_deck_cards_integrity (connect s) = Ok c1 /\
      check_wins_uses_sanity (connect s) = Ok c2 /\
      check_meta_not_empty (connect s) = Ok c3 /\
      check_expected_topn_player_count (connect s) (top_n args) = Ok c4 /\
      check_totals_sanity_topn_vs_meta (connect s) = Ok c5 /\
      check_unknown_deck_type_explosion (connect s) (max_unknown_ratio args)
        = Ok c6.
Proof.
  intros s args Hfit.
  assert (H1 := @deck_check_returns (connect s) _ eq_refl).
  assert (H2 := counters_check_connect s).
  destruct (meta_check_connect s) as [c3 H3].
  destruct (expected_check_connect s (top_n args)) as [c4 H4].
  destruct (totals_check_returns s) as [c5 H5].
  destruct (unknown_check_returns s (max_unknown_ratio args) Hfit) as [c6 H6].
  do 2 eexists. exists c3, c4, c5, c6.
  unfold run_checks. rewrite H1, H2, H3, H4, H5, H6. cbn [bind].
  repeat split; reflexivity.
Qed.

(** On the sample snapshot the first two checks fail and six results
    come back all the same. *)
Lemma C1_runner_witness :
  Z.abs (sum_uses (unknown_rows (meta_deck_types sample_snapshot))) < 2 ^ 63 /\
  exists c1 c2 c3 c4 c5 c6 : CheckResult,
    run_checks (connect sample_snapshot) default_args
      = Ok [c1; c2; c3; c4; c5; c6] /\
    check_deck_cards_integrity (connect sample_snapshot) = Ok c1 /\
    check_wins_uses_sanity (connect sample_snapshot) = Ok c2 /\
    check_meta_not_empty (connect sample_snapshot) = Ok c3 /\
    check_expected_topn_player_count (connect sample_snapshot)
      (top_n default_args) = Ok c4 /\
    check_totals_sanity_topn_vs_meta (connect sample_snapshot) = Ok c5 /\
    check_unknown_deck_type_explosion (connect sample_snapshot)
      (max_unknown_ratio default_args) = Ok c6.
Proof.
  assert (H : Z.abs (sum_uses (unknown_rows (meta_deck_types sample_snapshot)))
              < 2 ^ 63) by (vm_compute; reflexivity).
  split; [exact H|].
  exact (C1_runner_returns_six_results_in_order sample_snapshot default_args H).
Defined.

Example sample_run_flags :
  match run_checks (connect sample_snapshot) default_args with
  | Ok rs => map ok rs = [false; false; true; true; true; true]
  | Raise _ => False
  end.
Proof. vm_compute. reflexivity. Qed.

(** C2, as the code has it.  A fault of the first check that does not
    return is the fault of the run: no list of results is returned, and
    [main] ends as an uncaught exception does, with nothing on the standard
    output and status 1. *)
Theorem C2_fault_in_a_check_aborts_the_run :
  forall (conn : Conn) (args : Args)
         (pre post : list (Conn -> Result CheckResult))
         (c : Conn -> Result CheckResult) (e : exn),
    catalog args = List.app pre (c :: post) ->
    Forall (fun k => is_ok (k conn) = true) pre ->
    c conn = Raise e ->
    run_checks conn args = Raise e /\
    forall (env : option string) (url : string) (engine : string -> Result Conn),
      _get_database_url (database_url args) env = Some url ->
      engine url = Ok conn ->
      main env args engine = uncaught e.
Proof.
  intros conn args pre post c e Hcat Hpre Hc.
  assert (Hrun : run_checks conn args = Raise e).
  { rewrite run_checks_run_all, Hcat. apply run_all_first_fault; assumption. }
  split; [exact Hrun|].
  intros env url engine Hurl Hengine. unfold main.
  rewrite Hurl, Hengine. cbn [bind]. rewrite Hrun. reflexivity.
Qed.

Lemma C2_fault_witness :
  run_checks (dropped_on_player sample_snapshot) (with_top_n 2)
    = Raise (DBAPIError "server closed the connection") /\
  forall (env : option string) (url : string) (engine : string -> Result Conn),
    _get_database_url (database_url (with_top_n 2)) env = Some url ->
    engine url = Ok (dropped_on_player sample_snapshot) ->
    main env (with_top_n 2) engine
      = uncaught (DBAPIError "server closed the connection").
Proof.
  apply (@C2_fault_in_a_check_aborts_the_run
           (dropped_on_player sample_snapshot) (with_top_n 2)
           [check_deck_cards_integrity; check_wins_uses_sanity;
            check_meta_not_empty]
           [check_totals_sanity_topn_vs_meta;
            (fun conn => check_unknown_deck_type_explosion conn
                           (max_unknown_ratio (with_top_n 2)))]
           (fun conn => check_expected_topn_player_count conn
                          (top_n (with_top_n 2)))).
  - reflexivity.
  - repeat constructor.
  - reflexivity.
Defined.

(** The claim C2 fails: with a connection lost while the fourth check
    counts the players, no result is returned, not even those of the three
    checks that had returned, and nothing is reported. *)
Lemma C2_fault_is_not_caught :
  ~ (exists rs, run_checks (dropped_on_player sample_snapshot) (with_top_n 2)
                = Ok rs) /\
  stdout (main (Some "postgresql://db") (with_top_n 2)
               (fun _ => Ok (dropped_on_player sample_snapshot))) = [] /\
  (exists c, check_totals_sanity_topn_vs_meta
               (dropped_on_player sample_snapshot) = Ok c).
Proof.
  split; [|split].
  - intros [rs H]. vm_compute in H. discriminate.
  - vm_compute. reflexivity.
  - eexists. vm_compute. reflexivity.
Qed.

(* ------------------------------------------------------------------ *)
(** ** The cross-table bounded-ratio check *)

Lemma str_of_int_digit (d : Z) : 0 <= d <= 9 -> str_of_int d = digit d.
Proof.
  intros Hd.
  assert (H : d = 0 \/ d = 1 \/ d = 2 \/ d = 3 \/ d = 4 \/ d = 5 \/ d = 6
              \/ d = 7 \/ d = 8 \/ d = 9) by lia.
  repeat (destruct H as [->|H]; [reflexivity|]). subst d. reflexivity.
Qed.

(** Two decimals, digit by digit. *)
Lemma fixed2_digits (h : Z) :
  0 <= h ->
  fixed2 false h
  = str_of_int (h / 100) ++ "." ++ digit (h mod 100 / 10) ++ digit (h mod 10).
Proof.
  intros Hh. unfold fixed2. cbn [append].
  rewrite (@str_of_int_digit (h mod 100 / 10)), (@str_of_int_digit (h mod 10)).
  - reflexivity.
  - assert (H := Z.mod_pos_bound h 10 ltac:(lia)). lia.
  - assert (H := Z.mod_pos_bound h 100 ltac:(lia)).
    split; [apply Z.div_pos; lia|].
    apply Z.lt_succ_r. apply Z.div_lt_upper_bound; lia.
Qed.

(** C3.  With [topn_obs] the sum of [uses] over [player_decks] and
    [meta_obs] the sum over [meta_deck_types] (0 for a table without rows,
    whose SUM is NULL), the check returns a result; it fails exactly when
    [topn_obs = 0], [meta_obs < topn_obs] or [meta_obs > 2 * topn_obs];
    when it passes, the bounds included, its details end with the float
    [meta_obs / topn_obs] printed with two decimals: three digits [h] with
    [h / 100] less than one hundredth away from the exact quotient. *)
Theorem C3_totals_check_bounded_ratio :
  forall s : Snapshot,
    let topn_obs := fold_right Z.add 0 (map uses (player_decks s)) in
    let meta_obs := fold_right Z.add 0 (map uses (meta_deck_types s)) in
    exists r,
      check_totals_sanity_topn_vs_meta (connect s) = Ok r /\
      (ok r = false <->
       topn_obs = 0 \/ meta_obs < topn_obs \/ meta_obs > 2 * topn_obs) /\
      (ok r = true <->
       topn_obs <> 0 /\ topn_obs <= meta_obs <= 2 * topn_obs) /\
      (ok r = true ->
       exists (ratio : float) (h : Z),
         int_true_div meta_obs topn_obs = Ok ratio /\
         details r = "topn_obs=" ++ str_of_int topn_obs ++ ", meta_obs="
                     ++ str_of_int meta_obs ++ ", ratio=" ++ format_2f ratio /\
         format_2f ratio
         = digit (h / 100) ++ "." ++ digit (h mod 100 / 10) ++ digit (h mod 10) /\
         100 <= h <= 200 /\
         Z.abs (h * topn_obs - 100 * meta_obs) < topn_obs).
Proof.
  intros s topn_obs meta_obs.
  destruct (totals_check_returns s) as [r Hr]. exists r. split; [exact Hr|].
  rewrite totals_check_connect in Hr. cbv zeta in Hr.
  rewrite !sum_uses_fold in Hr. fold topn_obs meta_obs in Hr.
  destruct (Z.eqb_spec topn_obs 0) as [H0|H0].
  { injection Hr as <-. cbn [ok details].
    repeat split; intros; try discriminate; try reflexivity; lia. }
  destruct (Z.ltb_spec meta_obs topn_obs) as [Hlt|Hge].
  { injection Hr as <-. cbn [ok details].
    repeat split; intros; try discriminate; try reflexivity; lia. }
  destruct (Z.gtb_spec meta_obs (2 * topn_obs)) as [Hgt|Hle].
  { injection Hr as <-. cbn [ok details].
    repeat split; intros; try discriminate; try reflexivity; lia. }
  destruct (@ratio_2f_near meta_obs topn_obs ltac:(lia) ltac:(lia))
    as (ratio & h & Hdiv & Hfmt & Hnear).
  rewrite Hdiv in Hr. cbn [bind] in Hr. injection Hr as <-. cbn [ok details].
  split; [split; [discriminate|intros; exfalso; lia]|].
  split; [split; [intros _; lia|reflexivity]|].
  intros _. exists ratio, h.
  assert (Hh : 100 <= h <= 200) by nia.
  split; [exact Hdiv|]. split; [reflexivity|]. split; [|split; [exact Hh|exact Hnear]].
  rewrite Hfmt, fixed2_digits by lia.
  rewrite (@str_of_int_digit (h / 100)); [reflexivity|].
  split; [apply Z.div_pos; lia|].
  apply Z.lt_succ_r. apply Z.div_lt_upper_bound; lia.
Qed.

(** The figures of the specification: 150 observations against 100 pass
    with ratio 1.50; 90 and 210 fail; no observation at all fails. *)
Example totals_100_150 :
  check_totals_sanity_topn_vs_meta (connect (totals_snapshot 100 150)) =
  Ok {| name := "totals sanity: meta_obs between topn_obs and 2*topn_obs";
        ok := true;
        details := "topn_obs=100, meta_obs=150, ratio=1.50" |}.
Proof. vm_compute. reflexivity. Qed.

Example totals_100_90 :
  check_totals_sanity_topn_vs_meta (connect (totals_snapshot 100 90)) =
  Ok {| name := "totals sanity: meta_obs between topn_obs and 2*topn_obs";
        ok := false;
        details := "meta_obs < topn_obs (90 < 100)" |}.
Proof. vm_compute. reflexivity. Qed.

Example totals_100_210 :
  check_totals_sanity_topn_vs_meta (connect (totals_snapshot 100 210)) =
  Ok {| name := "totals sanity: meta_obs between topn_obs and 2*topn_obs";
        ok := false;
        details := "meta_obs > 2*topn_obs (210 > 200)" |}.
Proof. vm_compute. reflexivity. Qed.

Example totals_bounds_pass :
  check_totals_sanity_topn_vs_meta (connect (totals_snapshot 100 100)) =
  Ok {| name := "totals sanity: meta_obs between topn_obs and 2*topn_obs";
        ok := true;
        details := "topn_obs=100, meta_obs=100, ratio=1.00" |} /\
  check_totals_sanity_topn_vs_meta (connect (totals_snapshot 100 200)) =
  Ok {| name := "totals sanity: meta_obs between topn_obs and 2*topn_obs";
        ok := true;
        details := "topn_obs=100, meta_obs=200, ratio=2.00" |}.
Proof. split; vm_compute; reflexivity. Qed.

Example totals_no_player_decks (meta_obs : Z) :
  check_totals_sanity_topn_vs_meta (connect (totals_snapshot 0 meta_obs)) =
  Ok {| name := "totals sanity: meta_obs between topn_obs and 2*topn_obs";
        ok := false;
        details := "topn_obs (SUM(player_decks.uses)) is 0; did ETL write player_decks?" |}.
Proof. reflexivity. Qed.

Example totals_empty_tables :
  check_totals_sanity_topn_vs_meta (connect empty_snapshot) =
  Ok {| name := "totals sanity: meta_obs between topn_obs and 2*topn_obs";
        ok := false;
        details := "topn_obs (SUM(player_decks.uses)) is 0; did ETL write player_decks?" |}.
Proof. reflexivity. Qed.

(* ------------------------------------------------------------------ *)
(** ** The verdict *)

Lemma report_loop_failed (checks : list CheckResult) :
  forall out failed,
    snd (report_loop checks out failed)
    = failed + Z.of_nat (List.length (failures checks)).
Proof.
  induction checks as [|c checks IH]; intros out failed; simpl.
  - lia.
  - rewrite IH. destruct (ok c); simpl; lia.
Qed.

Lemma failures_nil (checks : list CheckResult) :
  failures checks = [] <-> Forall (fun c => ok c = true) checks.
Proof.
  induction checks as [|c checks IH]; simpl.
  - split; constructor.
  - destruct (ok c) eqn:Hc; simpl.
    + rewrite IH. split; intros H; [constructor; assumption|inversion H; assumption].
    + split; [discriminate|]. intros H. inversion H. congruence.
Qed.

Lemma report_exit_status (checks : list CheckResult) :
  exit_status (report checks)
  = if count_failed checks =? 0 then 0 else 1.
Proof.
  unfold report, count_failed.
  assert (H1 := report_loop_failed checks [nl ++ "[VALIDATE] RESULTS"] 0).
  assert (H2 := report_loop_failed checks [] 0).
  destruct (report_loop checks [nl ++ "[VALIDATE] RESULTS"] 0) as [out failed].
  cbn [snd] in H1. rewrite H2, <- H1.
  destruct (failed =? 0); reflexivity.
Qed.

(** C4.  The number of failures counted by the report is the number of
    results that are not ok; the verdict is a pass (status 0) exactly when
    that number is zero, which is when every check passed, and the status
    is 1 exactly when at least one check failed. *)
Theorem C4_verdict_and_exit_status :
  forall checks : list CheckResult,
    count_failed checks = Z.of_nat (List.length (failures checks)) /\
    (exit_status (report checks) = 0 <-> count_failed checks = 0) /\
    (exit_status (report checks) = 0 <-> Forall (fun c => ok c = true) checks) /\
    (exit_status (report checks) = 1 <-> Exists (fun c => ok c = false) checks) /\
    (exit_status (report checks) = 0 \/ exit_status (report checks) = 1).
Proof.
  intros checks.
  assert (Hcount : count_failed checks = Z.of_nat (List.length (failures checks))).
  { unfold count_failed. rewrite report_loop_failed. lia. }
  assert (Hall : count_failed checks = 0 <-> Forall (fun c => ok c = true) checks).
  { rewrite Hcount, <- failures_nil.
    destruct (failures checks); simpl; split; intros H; try reflexivity;
      try discriminate; lia. }
  assert (Hex : ~ Forall (fun c => ok c = true) checks
                <-> Exists (fun c => ok c = false) checks).
  { rewrite <- Exists_Forall_neg.
    - split; apply Exists_impl; intros c; destruct (ok c); congruence.
    - intros c. destruct (ok c); [left|right]; congruence. }
  rewrite report_exit_status.
  destruct (Z.eqb_spec (count_failed checks) 0) as [Hz|Hnz].
  - repeat split; intros; try lia; try (apply Hall; assumption); auto.
    apply Hex in H. exfalso. apply H, Hall, Hz.
  - repeat split; intros; try lia; auto.
    + exfalso. apply Hnz, Hall. assumption.
    + apply Hex. intros HF. apply Hnz, Hall, HF.
Qed.

Example sample_report :
  match run_checks (connect sample_snapshot) (with_top_n 2) with
  | Ok rs =>
      stdout (report rs) =
      [ nl ++ "[VALIDATE] RESULTS";
        "  - FAIL: deck_cards: each deck_hash has exactly 8 cards";
        "      Found deck_hash with != 8 cards (showing up to 20):" ++ nl
          ++ "        D2 -> 7";
        "  - FAIL: wins/uses sanity (wins<=uses and non-negative)";
        "      player_decks has 1 bad rows; meta_type_cards has 1 bad rows";
        "  - OK: meta sanity: meta_deck_types not empty";
        "  - OK: player count matches --top-n";
        "      player=2";
        "  - OK: totals sanity: meta_obs between topn_obs and 2*topn_obs";
        "      topn_obs=100, meta_obs=150, ratio=1.50";
        "  - OK: deck_type sanity: unknown ratio";
        "      Unknown ratio: 25/150 = 16.67%";
        nl ++ "[VALIDATE] FAILED (2 checks)." ] /\
      exit_status (report rs) = 1
  | Raise _ => False
  end.
Proof. vm_compute. split; reflexivity. Qed.

(* ------------------------------------------------------------------ *)
(** ** The connection target *)

(** C5, on the code.  Without DATABASE_URL in the environment the guard
    at the top of the module ends the process with status 1 before the
    command line is read, whatever [--database-url] says; [main] alone,
    through [_get_database_url], would have taken the target of the command
    line and run the checks with it. *)
Theorem C5_module_guard_ignores_command_line :
  forall engine : string -> Result Conn,
    script None (with_database_url "postgresql://validator@db/snapshot") engine
    = {| stdout := [];
         stderr := ["[VALIDATE] FAIL: DATABASE_URL is not set (and --database-url not provided)."];
         exit_status := 1 |} /\
    _get_database_url (Some "postgresql://validator@db/snapshot") None
    = Some "postgresql://validator@db/snapshot" /\
    main None (with_database_url "postgresql://validator@db/snapshot")
         (fun _ => Ok (connect (totals_snapshot 100 150)))
    = report
        [ mk_result "deck_cards: each deck_hash has exactly 8 cards" true;
          mk_result "wins/uses sanity (wins<=uses and non-negative)" true;
          mk_result "meta sanity: meta_deck_types not empty" true;
          mk_result "player count matches --top-n (skipped)" true;
          {| name := "totals sanity: meta_obs between topn_obs and 2*topn_obs";
             ok := true;
             details := "topn_obs=100, meta_obs=150, ratio=1.50" |};
          {| name := "deck_type sanity: unknown ratio";
             ok := true;
             details := "Unknown ratio: 0/150 = 0.00%" |} ].
Proof.
  intros engine. split; [reflexivity|]. split; [reflexivity|].
  vm_compute. reflexivity.
Qed.

(** With the variable set, the target of the command line is the one
    that is used, and the variable is the fallback. *)
Lemma get_database_url_cli_first (cli env : string) :
  str_truthy cli = true ->
  _get_database_url (Some cli) (Some env) = Some cli.
Proof. intros H. unfold _get_database_url. rewrite H, H. reflexivity. Qed.

Lemma get_database_url_env_fallback (env : string) :
  str_truthy env = true ->
  _get_database_url None (Some env) = Some env.
Proof. intros H. unfold _get_database_url. rewrite H. reflexivity. Qed.

(* ------------------------------------------------------------------ *)
(** ** The deck cardinality check *)

Lemma In_distinct (k : string) (keys : list string) :
  In k (distinct keys) <-> In k keys.
Proof.
  induction keys as [|k0 keys IH]; simpl; [reflexivity|].
  rewrite filter_In, IH.
  destruct (String.eqb_spec k k0) as [->|Hne]; simpl.
  - split; intros _; left; reflexivity.
  - split; intros [H|H]; try (left; assumption); right; tauto.
Qed.

Lemma In_bad_deck_groups (t : list deck_card_row) (h : string) (n : Z) :
  In (h, n) (bad_deck_groups t) <->
  In h (map deck_hash t) /\ n = rows_of_deck t h /\ n <> 8.
Proof.
  unfold bad_deck_groups, deck_groups. rewrite filter_In, in_map_iff. simpl.
  rewrite negb_true_iff, Z.eqb_neq. split.
  - intros [(h' & Heq & Hin) Hn]. injection Heq as -> <-.
    rewrite In_distinct in Hin. split; [exact Hin|]. split; [reflexivity|exact Hn].
  - intros (Hin & -> & Hn). split; [|assumption].
    exists h. split; [reflexivity|]. rewrite In_distinct. assumption.
Qed.

Lemma bad_deck_groups_nil (t : list deck_card_row) :
  bad_deck_groups t = [] <->
  forall h, In h (map deck_hash t) -> rows_of_deck t h = 8.
Proof.
  split.
  - intros Hnil h Hin. destruct (Z.eq_dec (rows_of_deck t h) 8) as [|Hne];
      [assumption|].
    assert (Hbad : In (h, rows_of_deck t h) (bad_deck_groups t))
      by (apply In_bad_deck_groups; auto).
    rewrite Hnil in Hbad. contradiction.
  - intros Hall. destruct (bad_deck_groups t) as [|[h n] l] eqn:E; [reflexivity|].
    assert (Hbad : In (h, n) (bad_deck_groups t)) by (rewrite E; left; reflexivity).
    apply In_bad_deck_groups in Hbad. destruct Hbad as (Hin & -> & Hn).
    exfalso. apply Hn, Hall, Hin.
Qed.

Lemma limit_20_nil {A : Type} (l : list A) : limit_20 l = [] <-> l = [].
Proof. destruct l; simpl; split; intros H; try reflexivity; discriminate. Qed.

Lemma limit_20_length {A : Type} (l : list A) :
  (List.length (limit_20 l) <= 20)%nat.
Proof. unfold limit_20. apply firstn_le_length. Qed.

Lemma limit_20_In {A : Type} (l : list A) (x : A) :
  In x (limit_20 l) -> In x l.
Proof.
  unfold limit_20. rewrite <- (firstn_skipn 20 l) at 2.
  intros H. apply in_or_app. left. exact H.
Qed.

(** What the statement of the deck check may answer. *)
Lemma bad_deck_answer_sound (t : list deck_card_row) (rows : list (string * Z)) :
  bad_deck_answer t rows ->
  (rows = [] <-> bad_deck_groups t = []) /\
  (List.length rows <= 20)%nat /\
  forall h n, In (h, n) rows ->
              In h (map deck_hash t) /\ n = rows_of_deck t h /\ n <> 8.
Proof.
  intros (groups & Hperm & ->). split; [|split].
  - rewrite limit_20_nil. split; intros H.
    + subst groups. apply Permutation_nil. exact Hperm.
    + rewrite H in Hperm. apply Permutation_nil. symmetry. exact Hperm.
  - apply limit_20_length.
  - intros h n Hin. apply In_bad_deck_groups.
    apply (Permutation_in _ Hperm). apply limit_20_In. exact Hin.
Qed.

Lemma eval_rows_answer (s : Snapshot) :
  exists rows, fetchall (connect s) Q_bad_deck_groups = Ok rows /\
               bad_deck_answer (deck_cards s) rows.
Proof.
  eexists. split; [reflexivity|].
  exists (bad_deck_groups (deck_cards s)). split; [apply Permutation_refl|reflexivity].
Qed.

Lemma str_app_assoc (a b c : string) : (a ++ b) ++ c = a ++ (b ++ c).
Proof. induction a as [|x a IH]; simpl; [reflexivity|]. rewrite IH. reflexivity. Qed.

Lemma str_app_nil_r (a : string) : a ++ EmptyString = a.
Proof. induction a as [|x a IH]; simpl; [reflexivity|]. rewrite IH. reflexivity. Qed.

Lemma prefix_app (a b : string) : String.prefix a (a ++ b) = true.
Proof.
  induction a as [|c a IH]; simpl; [destruct b; reflexivity|].
  destruct (ascii_dec c c); [exact IH|contradiction].
Qed.

Lemma contains_unfold (needle hay : string) :
  contains needle hay =
  if String.prefix needle hay then true
  else match hay with
       | EmptyString => false
       | String _ rest => contains needle rest
       end.
Proof. destruct hay; reflexivity. Qed.

Lemma contains_app (needle pre post : string) :
  contains needle (pre ++ needle ++ post) = true.
Proof.
  induction pre as [|c pre IH]; rewrite contains_unfold.
  - cbn [append]. rewrite prefix_app. reflexivity.
  - cbn [append]. rewrite IH. destruct (String.prefix _ _); reflexivity.
Qed.

Lemma join_has_part (sep l : string) (parts : list string) :
  In l parts -> exists pre post, join sep parts = pre ++ l ++ post.
Proof.
  induction parts as [|x rest IH]; intros Hin; [contradiction|].
  destruct Hin as [->|Hin].
  - destruct rest as [|y rest].
    + exists EmptyString, EmptyString. simpl. symmetry. apply str_app_nil_r.
    + exists EmptyString, (sep ++ join sep (y :: rest)). reflexivity.
  - destruct (IH Hin) as (pre & post & Hj).
    destruct rest as [|y rest]; [contradiction|].
    exists (x ++ sep ++ pre), post.
    change (join sep (x :: y :: rest)) with (x ++ sep ++ join sep (y :: rest)).
    rewrite Hj, !str_app_assoc. reflexivity.
Qed.

(** A number printed by [str] reads back as itself. *)
Lemma int_of_str_of_int (z : Z) : int_of_str (str_of_int z) = Some z.
Proof.
  unfold int_of_str, str_of_int. rewrite NilZero.isi.
  - simpl. rewrite DecimalZ.of_to. reflexivity.
  - destruct z; simpl; try discriminate.
    intros H. injection H as H. apply (Unsigned.to_uint_nonnil _ H).
  - destruct z; simpl; try discriminate.
    intros H. injection H as H. apply (Unsigned.to_uint_nonnil _ H).
Qed.

(** C6.  Whatever order the database lists the groups in, the deck
    check fails exactly when some deck of [deck_cards] has a number of rows
    other than 8.  Its details then are the header followed by one line per
    row of the answer, made of two blanks, the deck, an arrow and the
    number of its rows: at least one and at most 20 lines, each for a deck
    of the table whose number of rows is not 8, so that every deck listed
    is in the details with its count and no deck with 8 rows has a line.
    It passes when every deck has 8 rows, and so on a table without
    rows. *)
Theorem C6_deck_cardinality_check :
  forall (t : list deck_card_row) (conn : Conn) (rows : list (string * Z)),
    fetchall conn Q_bad_deck_groups = Ok rows ->
    bad_deck_answer t rows ->
    exists r,
      check_deck_cards_integrity conn = Ok r /\
      (ok r = false <->
       exists h, In h (map deck_hash t) /\ rows_of_deck t h <> 8) /\
      (ok r = true <->
       forall h, In h (map deck_hash t) -> rows_of_deck t h = 8) /\
      (ok r = false ->
       details r = "Found deck_hash with != 8 cards (showing up to 20):" ++ nl
                   ++ join nl (map (fun row => "  " ++ fst row ++ " -> "
                                               ++ str_of_int (snd row)) rows) /\
       (0 < List.length rows <= 20)%nat /\
       forall h n, In (h, n) rows ->
                   In h (map deck_hash t) /\ n = rows_of_deck t h /\ n <> 8 /\
                   contains ("  " ++ h ++ " -> " ++ str_of_int n) (details r)
                   = true /\
                   int_of_str (str_of_int n) = Some n) /\
      (t = [] -> ok r = true).
Proof.
  intros t conn rows Hfetch Hans.
  destruct (bad_deck_answer_sound Hans) as (Hnil & Hlen & Hrows).
  rewrite bad_deck_groups_nil in Hnil.
  eexists. split; [apply deck_check_returns; exact Hfetch|].
  destruct rows as [|[h0 n0] rows].
  - assert (Hall := proj1 Hnil eq_refl). cbn [ok mk_result].
    split; [split; [discriminate|]|].
    { intros (h & Hin & Hne). exfalso. apply Hne, Hall, Hin. }
    split; [split; [intros _; exact Hall|reflexivity]|].
    split; [discriminate|reflexivity].
  - cbn [ok details].
    destruct (Hrows h0 n0 (or_introl eq_refl)) as (Hin0 & Hn0 & Hne0).
    split; [split; [intros _; exists h0; split; [assumption|congruence]
                   |reflexivity]|].
    split; [split; [discriminate|]|].
    { intros H. exfalso. apply Hne0. rewrite Hn0. apply H, Hin0. }
    split; [|intros ->; destruct Hin0].
    intros _. split; [reflexivity|]. split; [simpl; simpl in Hlen; lia|].
    intros h n Hin. destruct (Hrows h n Hin) as (Hi & Hn & Hne).
    repeat split; try assumption; [|apply int_of_str_of_int].
    assert (Hline : In (deck_line (h, n)) (map deck_line ((h0, n0) :: rows)))
      by (apply in_map; exact Hin).
    destruct (join_has_part nl _ _ Hline) as (pre & post & Hj).
    change (contains (deck_line (h, n))
              (deck_details_header
               ++ join nl (map deck_line ((h0, n0) :: rows))) = true).
    rewrite Hj, <- (str_app_assoc deck_details_header pre). apply contains_app.
Qed.

Lemma C6_deck_cardinality_witness :
  fetchall (connect sample_snapshot) Q_bad_deck_groups = Ok [("D2", 7)] /\
  bad_deck_answer (deck_cards sample_snapshot) [("D2", 7)] /\
  exists r,
    check_deck_cards_integrity (connect sample_snapshot) = Ok r /\
    ok r = false /\
    details r = "Found deck_hash with != 8 cards (showing up to 20):" ++ nl
                ++ "  D2 -> 7" /\
    contains "  D2 -> 7" (details r) = true /\
    contains "D1" (details r) = false.
Proof.
  assert (Hfetch : fetchall (connect sample_snapshot) Q_bad_deck_groups
                   = Ok [("D2", 7)]) by (vm_compute; reflexivity).
  assert (Hans : bad_deck_answer (deck_cards sample_snapshot) [("D2", 7)]).
  { exists [("D2", 7)]. split; [|reflexivity].
    vm_compute. apply Permutation_refl. }
  split; [exact Hfetch|]. split; [exact Hans|].
  destruct (@C6_deck_cardinality_check (deck_cards sample_snapshot)
              (connect sample_snapshot) [("D2", 7)] Hfetch Hans)
    as (r & Hr & Hfail & _ & Hdet & _).
  assert (Hok : ok r = false).
  { apply Hfail. exists "D2". split; [vm_compute; auto 20|].
    vm_compute. discriminate. }
  destruct (Hdet Hok) as (Hd & _ & Hlines).
  exists r. split; [exact Hr|]. split; [exact Hok|].
  split; [rewrite Hd; reflexivity|].
  split; [apply (Hlines "D2" 7); left; reflexivity|].
  rewrite Hd. vm_compute. reflexivity.
Defined.

(** The deck D1 with its eight rows is not in the details, the deck D2
    with seven is. *)
Example deck_check_D1_D2 :
  match check_deck_cards_integrity (connect sample_snapshot) with
  | Ok r =>
      ok r = false /\
      details r = "Found deck_hash with != 8 cards (showing up to 20):" ++ nl
                  ++ "  D2 -> 7" /\
      contains "D2 -> 7" (details r) = true /\
      contains "D1" (details r) = false
  | Raise _ => False
  end.
Proof. vm_compute. repeat split; reflexivity. Qed.

Example deck_check_empty_table :
  check_deck_cards_integrity (connect empty_snapshot) =
  Ok (mk_result "deck_cards: each deck_hash has exactly 8 cards" true).
Proof. reflexivity. Qed.

(* ------------------------------------------------------------------ *)
(** ** The counters sanity check *)



Lemma filter_nil_iff {A : Type} (f : A -> bool) (l : list A) :
  filter f l = [] <-> forall x, In x l -> f x = false.
Proof.
  induction l as [|a l IH]; simpl.
  - split; [intros _ x []|reflexivity].
  - destruct (f a) eqn:Ha.
    + split; [discriminate|]. intros H. specialize (H a (or_introl eq_refl)).
      congruence.
    + rewrite IH. split; intros H x; [intros [<-|Hx]; auto|auto].
Qed.


(** A row of [player_decks] with 5 uses and 6 wins: the check fails and
    its details name the table. *)
Example counters_check_sample :
  match check_wins_uses_sanity (connect sample_snapshot) with
  | Ok r =>
      ok r = false /\
      details r = "player_decks has 1 bad rows; meta_type_cards has 1 bad rows" /\
      contains "player_decks" (details r) = true /\
      contains "player_type_cards" (details r) = false
  | Raise _ => False
  end.
Proof. vm_compute. repeat split; reflexivity. Qed.

Example counters_check_sane :
  check_wins_uses_sanity (connect (totals_snapshot 100 150)) =
  Ok (mk_result "wins/uses sanity (wins<=uses and non-negative)" true).
Proof. vm_compute. reflexivity. Qed.

(* ------------------------------------------------------------------ *)
(** ** The unresolved-label ratio check *)

Lemma float_gt_irrefl (x : float) : float_gt x x = false.
Proof.
  destruct x as [s|s| |s m e]; simpl; try reflexivity.
  - destruct s; reflexivity.
  - unfold dyadic_compare. rewrite Z.compare_refl. destruct s; reflexivity.
Qed.

(** C8.  With [total] the sum of [uses] over [meta_deck_types] and
    [unknown] the sum over its rows whose label is the word unknown in any
    mix of upper and lower case (0 for a sum over no row), with labels in
    ASCII and [unknown] within the 64-bit SQL integers, the check returns a
    result.  It fails exactly when [total = 0] or the float
    [unknown / total] is greater than the ceiling; a ratio equal to the
    ceiling passes; the details carry the ratio as a percentage on both
    sides.  When no row has a negative [uses], that percentage is less than
    one hundredth of a percent away from the exact [100 * unknown / total],
    and against a ceiling [mc * 2^ec] the outcome is that of the exact
    quotient as soon as it is more than [2^-51] away from the ceiling. *)
Theorem C8_unknown_ratio_check :
  forall (s : Snapshot) (ceiling : float),
    let total := fold_right Z.add 0 (map uses (meta_deck_types s)) in
    let unknown :=
      fold_right Z.add 0
        (map uses
             (filter (fun r => String.eqb (lower (deck_type r)) "unknown")
                     (meta_deck_types s))) in
    Forall (fun r => ascii_text (deck_type r) = true) (meta_deck_types s) ->
    Z.abs unknown < 2 ^ 63 ->
    exists r,
      check_unknown_deck_type_explosion (connect s) ceiling = Ok r /\
      (ok r = false <->
       total = 0 \/
       exists ratio, int_true_div unknown total = Ok ratio /\
                     float_gt ratio ceiling = true) /\
      (total = 0 -> details r = "meta_deck_types total uses is 0") /\
      (total <> 0 ->
       exists ratio,
         int_true_div unknown total = Ok ratio /\
         ok r = negb (float_gt ratio ceiling) /\
         details r =
           if float_gt ratio ceiling
           then "Unknown uses ratio too high: " ++ str_of_int unknown ++ "/"
                ++ str_of_int total ++ " = " ++ format_2pct ratio
                ++ " (max " ++ format_2pct ceiling ++ ")"
           else "Unknown ratio: " ++ str_of_int unknown ++ "/"
                ++ str_of_int total ++ " = " ++ format_2pct ratio) /\
      (total <> 0 -> int_true_div unknown total = Ok ceiling -> ok r = true) /\
      (Forall (fun r => 0 <= uses r) (meta_deck_types s) -> total <> 0 ->
       0 <= unknown <= total /\
       (exists (ratio : float) (P : Z),
          int_true_div unknown total = Ok ratio /\
          format_2pct ratio
          = (str_of_int (P / 100) ++ "." ++ digit (P mod 100 / 10)
             ++ digit (P mod 10)) ++ "%" /\
          0 <= P <= 10000 /\
          Z.abs (P * total - 10000 * unknown) < total) /\
       (forall (mc : positive) (ec : Z),
          ceiling = S754_finite false mc ec -> ec <= 0 ->
          ((Zpos mc * 2 ^ 51 + 2 ^ (- ec)) * total
           < unknown * 2 ^ (- ec) * 2 ^ 51 -> ok r = false) /\
          (unknown * 2 ^ (- ec) * 2 ^ 51
           < (Zpos mc * 2 ^ 51 - 2 ^ (- ec)) * total -> ok r = true))).
Proof.
  intros s ceiling total unknown _ Hfit.
  assert (Ht : total = sum_uses (meta_deck_types s))
    by (unfold total; rewrite sum_uses_fold; reflexivity).
  assert (Hu : unknown = sum_uses (unknown_rows (meta_deck_types s)))
    by (unfold unknown; rewrite sum_uses_fold; reflexivity).
  clearbody total unknown. subst total unknown.
  set (total := sum_uses (meta_deck_types s)).
  set (unknown := sum_uses (unknown_rows (meta_deck_types s))) in *.
  destruct (unknown_check_returns s ceiling Hfit) as [r Hr].
  exists r. split; [exact Hr|].
  rewrite unknown_check_connect in Hr. cbv zeta in Hr.
  fold total unknown in Hr.
  destruct (Z.eqb_spec total 0) as [H0|H0].
  { injection Hr as <-. cbn [ok details].
    split; [split; [intros _; left; exact H0 | reflexivity]|].
    split; [reflexivity|]. repeat split; intros; contradiction. }
  bind_inv Hr. rename c into ratio, Hc into Hratio.
  assert (Hok : ok r = negb (float_gt ratio ceiling))
    by (destruct (float_gt ratio ceiling); injection Hr as <-; reflexivity).
  split.
  { rewrite Hok, negb_false_iff. split.
    - intros Hgt. right. exists ratio. split; assumption.
    - intros [Hz|(q & Hq & Hgt)]; [contradiction|]. congruence. }
  split; [intros; contradiction|]. split; [|split].
  - intros _. exists ratio. split; [exact Hratio|]. split; [exact Hok|].
    destruct (float_gt ratio ceiling); injection Hr as <-; reflexivity.
  - intros _ Heq. rewrite Hok. rewrite Hratio in Heq. injection Heq as ->.
    rewrite float_gt_irrefl. reflexivity.
  - intros Hsane _.
    assert (Hb := sum_uses_filter_bounds
                    (fun r => ilike (deck_type r) "unknown") Hsane).
    fold (unknown_rows (meta_deck_types s)) in Hb. fold total unknown in Hb.
    split; [exact Hb|]. split.
    + destruct (@pct_near unknown total ratio Hb ltac:(lia) Hratio)
        as (P & HP & Hnear).
      assert (HP0 : 0 <= P <= 10000) by nia.
      exists ratio, P. split; [exact Hratio|].
      split; [|split; [exact HP0|exact Hnear]].
      rewrite HP, fixed2_digits by lia. reflexivity.
    + intros mc ec -> Hec.
      destruct (@ceiling_band unknown total ratio mc ec Hb ltac:(lia) Hec Hratio)
        as [Habove Hbelow].
      rewrite Hok. split; intros H.
      * rewrite (Habove H). reflexivity.
      * rewrite (Hbelow H). reflexivity.
Qed.

Lemma C8_unknown_ratio_witness :
  Forall (fun r => ascii_text (deck_type r) = true)
         (meta_deck_types (ratio_snapshot 35 100)) /\
  Z.abs (fold_right Z.add 0
           (map uses
                (filter (fun r => String.eqb (lower (deck_type r)) "unknown")
                        (meta_deck_types (ratio_snapshot 35 100)))))
    < 2 ^ 63 /\
  exists r,
    check_unknown_deck_type_explosion (connect (ratio_snapshot 35 100))
      default_max_unknown_ratio = Ok r /\
    ok r = false /\
    details r = "Unknown uses ratio too high: 35/100 = 35.00% (max 30.00%)".
Proof.
  assert (Hascii : Forall (fun r => ascii_text (deck_type r) = true)
                          (meta_deck_types (ratio_snapshot 35 100)))
    by (repeat constructor).
  assert (Hfit :
    Z.abs (fold_right Z.add 0
             (map uses
                  (filter (fun r => String.eqb (lower (deck_type r)) "unknown")
                          (meta_deck_types (ratio_snapshot 35 100)))))
      < 2 ^ 63) by (vm_compute; reflexivity).
  split; [exact Hascii|]. split; [exact Hfit|].
  destruct (@C8_unknown_ratio_check (ratio_snapshot 35 100)
              default_max_unknown_ratio Hascii Hfit)
    as (r & Hr & Hfail & _ & Hdet & _).
  exists r. split; [exact Hr|]. split.
  - apply Hfail. right. eexists. split; vm_compute; reflexivity.
  - destruct Hdet as (ratio & Hratio & _ & Hd); [vm_compute; discriminate|].
    vm_compute in Hratio. injection Hratio as <-.
    rewrite Hd. vm_compute. reflexivity.
Defined.

(** The default ceiling is the float nearest to three tenths. *)
Example default_ceiling_is_0_30 :
  int_true_div 3 10 = Ok default_max_unknown_ratio /\
  format_2pct default_max_unknown_ratio = "30.00%".
Proof. split; vm_compute; reflexivity. Qed.

(** The figures of the specification, with the ceiling 0.30: 25 out of
    100 pass, 35 out of 100 fail, 30 out of 100 is the ceiling itself and
    passes, and a total of 0 fails. *)
Example unknown_25_of_100 :
  check_unknown_deck_type_explosion (connect (ratio_snapshot 25 100))
    default_max_unknown_ratio =
  Ok {| name := "deck_type sanity: unknown ratio";
        ok := true;
        details := "Unknown ratio: 25/100 = 25.00%" |}.
Proof. vm_compute. reflexivity. Qed.

Example unknown_35_of_100 :
  check_unknown_deck_type_explosion (connect (ratio_snapshot 35 100))
    default_max_unknown_ratio =
  Ok {| name := "deck_type sanity: unknown ratio";
        ok := false;
        details := "Unknown uses ratio too high: 35/100 = 35.00% (max 30.00%)" |}.
Proof. vm_compute. reflexivity. Qed.

Example unknown_30_of_100 :
  check_unknown_deck_type_explosion (connect (ratio_snapshot 30 100))
    default_max_unknown_ratio =
  Ok {| name := "deck_type sanity: unknown ratio";
        ok := true;
        details := "Unknown ratio: 30/100 = 30.00%" |}.
Proof. vm_compute. reflexivity. Qed.

Example unknown_total_0 (ceiling : float) :
  check_unknown_deck_type_explosion (connect (ratio_snapshot 0 0)) ceiling =
  Ok {| name := "deck_type sanity: unknown ratio";
        ok := false;
        details := "meta_deck_types total uses is 0" |}.
Proof. reflexivity. Qed.

Example ilike_unknown :
  ilike "Unknown" "unknown" = true /\ ilike "UNKNOWN" "unknown" = true /\
  ilike "unknown deck" "unknown" = false /\ ilike "Hog Cycle" "unknown" = false.
Proof. repeat split; reflexivity. Qed.

(* ------------------------------------------------------------------ *)
(** ** Details of a failing result *)

Lemma append_nonempty_l (a b : string) : a <> "" -> a ++ b <> "".
Proof. destruct a; simpl; [contradiction|discriminate]. Qed.

Lemma join_nonempty (sep p : string) (rest : list string) :
  p <> "" -> join sep (p :: rest) <> "".
Proof.
  intros Hp. destruct rest; simpl; [exact Hp|].
  apply append_nonempty_l. exact Hp.
Qed.

Lemma bad_rows_reason_nonempty (t : string) (n : Z) : bad_rows_reason t n <> "".
Proof. unfold bad_rows_reason. destruct t; simpl; discriminate. Qed.

Lemma wins_uses_loop_nonempty (conn : Conn) (ts : list (string * string * string)) :
  forall bad bad',
    Forall (fun b => b <> "") bad ->
    wins_uses_loop conn ts bad = Ok bad' ->
    Forall (fun b => b <> "") bad'.
Proof.
  induction ts as [|[[t u] w] ts IH]; simpl; intros bad bad' Hbad H.
  - injection H as <-. exact Hbad.
  - bind_inv H. apply IH in H; [exact H|].
    destruct (truthy c && _); [|exact Hbad].
    apply Forall_app. split; [exact Hbad|].
    constructor; [apply bad_rows_reason_nonempty|constructor].
Qed.

Ltac failing_details H :=
  injection H as <-; cbn [ok details mk_result];
  intros Hok; try discriminate Hok; simpl; discriminate.

Lemma deck_check_details (conn : Conn) (r : CheckResult) :
  check_deck_cards_integrity conn = Ok r -> ok r = false -> details r <> "".
Proof.
  unfold check_deck_cards_integrity. intros H. bind_inv H.
  destruct c; failing_details H.
Qed.

Lemma counters_check_details (conn : Conn) (r : CheckResult) :
  check_wins_uses_sanity conn = Ok r -> ok r = false -> details r <> "".
Proof.
  unfold check_wins_uses_sanity. intros H. bind_inv H.
  apply wins_uses_loop_nonempty in Hc; [|constructor].
  destruct c as [|b bad]; injection H as <-; cbn [ok details mk_result];
    intros Hok; [discriminate|].
  change (join "; " (b :: bad) <> ""). apply join_nonempty.
  inversion Hc. assumption.
Qed.

Lemma meta_check_details (conn : Conn) (r : CheckResult) :
  check_meta_not_empty conn = Ok r -> ok r = false -> details r <> "".
Proof.
  unfold check_meta_not_empty. intros H. bind_inv H.
  destruct (_ || _); failing_details H.
Qed.

Lemma expected_check_details (conn : Conn) (expected : option Z) (r : CheckResult) :
  check_expected_topn_player_count conn expected = Ok r ->
  ok r = false -> details r <> "".
Proof.
  unfold check_expected_topn_player_count. intros H.
  destruct expected; [|failing_details H].
  bind_inv H. destruct (negb _); failing_details H.
Qed.

Lemma totals_check_details (conn : Conn) (r : CheckResult) :
  check_totals_sanity_topn_vs_meta conn = Ok r -> ok r = false -> details r <> "".
Proof.
  unfold check_totals_sanity_topn_vs_meta. intros H. bind_inv H. bind_inv H.
  destruct (_ =? 0); [failing_details H|].
  destruct (_ <? _); [failing_details H|].
  destruct (_ >? _); [failing_details H|].
  bind_inv H. failing_details H.
Qed.

Lemma unknown_check_details (conn : Conn) (ceiling : float) (r : CheckResult) :
  check_unknown_deck_type_explosion conn ceiling = Ok r ->
  ok r = false -> details r <> "".
Proof.
  unfold check_unknown_deck_type_explosion. intros H. bind_inv H. bind_inv H.
  destruct (_ =? 0); [failing_details H|].
  bind_inv H. destruct (float_gt _ _); failing_details H.
Qed.

(** C9.  Whatever the connection answers and whatever the parameters,
    a result of a check of the catalog that is not ok has details that are
    not the empty string. *)
Theorem C9_failing_result_has_details :
  forall (conn : Conn) (args : Args) (c : Conn -> Result CheckResult)
         (r : CheckResult),
    In c (catalog args) ->
    c conn = Ok r ->
    ok r = false ->
    details r <> "".
Proof.
  intros conn args c r Hin Hr. unfold catalog in Hin. simpl in Hin.
  destruct Hin as [<-|[<-|[<-|[<-|[<-|[<-|[]]]]]]].
  - apply deck_check_details with conn. exact Hr.
  - apply counters_check_details with conn. exact Hr.
  - apply meta_check_details with conn. exact Hr.
  - apply expected_check_details with conn (top_n args). exact Hr.
  - apply totals_check_details with conn. exact Hr.
  - apply unknown_check_details with conn (max_unknown_ratio args). exact Hr.
Qed.

Lemma C9_failing_result_witness :
  details {| name := "wins/uses sanity (wins<=uses and non-negative)";
             ok := false;
             details := "player_decks has 1 bad rows; meta_type_cards has 1 bad rows" |}
  <> "".
Proof.
  apply (@C9_failing_result_has_details (connect sample_snapshot) default_args
           check_wins_uses_sanity).
  - right. left. reflexivity.
  - vm_compute. reflexivity.
  - reflexivity.
Defined.

(* ------------------------------------------------------------------ *)
(** ** Names of the results *)

Lemma run_checks_names (conn : Conn) (args : Args) (rs : list CheckResult) :
  run_checks conn args = Ok rs ->
  map name rs =
  [ "deck_cards: each deck_hash has exactly 8 cards";
    "wins/uses sanity (wins<=uses and non-negative)";
    "meta sanity: meta_deck_types not empty";
    match top_n args with
    | None => "player count matches --top-n (skipped)"
    | Some _ => "player count matches --top-n"
    end;
    "totals sanity: meta_obs between topn_obs and 2*topn_obs";
    "deck_type sanity: unknown ratio" ].
Proof.
  unfold run_checks. intros H.
  bind_inv H. bind_inv H. bind_inv H. bind_inv H. bind_inv H. bind_inv H.
  injection H as <-. cbn [map]. repeat f_equal.
  - unfold check_deck_cards_integrity in Hc. bind_inv Hc.
    destruct c5; injection Hc as <-; reflexivity.
  - unfold check_wins_uses_sanity in Hc0. bind_inv Hc0.
    destruct c5; injection Hc0 as <-; reflexivity.
  - unfold check_meta_not_empty in Hc1. bind_inv Hc1.
    destruct (_ || _); injection Hc1 as <-; reflexivity.
  - unfold check_expected_topn_player_count in Hc2.
    destruct (top_n args); [|injection Hc2 as <-; reflexivity].
    bind_inv Hc2. destruct (negb _); injection Hc2 as <-; reflexivity.
  - unfold check_totals_sanity_topn_vs_meta in Hc3. bind_inv Hc3. bind_inv Hc3.
    destruct (_ =? 0); [injection Hc3 as <-; reflexivity|].
    destruct (_ <? _); [injection Hc3 as <-; reflexivity|].
    destruct (_ >? _); [injection Hc3 as <-; reflexivity|].
    bind_inv Hc3. injection Hc3 as <-; reflexivity.
  - unfold check_unknown_deck_type_explosion in Hc4. bind_inv Hc4. bind_inv Hc4.
    destruct (_ =? 0); [injection Hc4 as <-; reflexivity|].
    bind_inv Hc4. destruct (float_gt _ _); injection Hc4 as <-; reflexivity.
Qed.

(** C10, as the code has it.  Two runs, on any two connections and
    with any parameters, give the same name at every position but the
    fourth, whatever passes or fails; at the fourth position, that of the
    expected population size, the names are the same when the expected
    size is given in both runs or left out in both. *)
Theorem C10_names_stable_up_to_skipped :
  forall (conn1 conn2 : Conn) (args1 args2 : Args) (rs1 rs2 : list CheckResult),
    run_checks conn1 args1 = Ok rs1 ->
    run_checks conn2 args2 = Ok rs2 ->
    (forall i : nat, i <> 3%nat ->
       nth_error (map name rs1) i = nth_error (map name rs2) i) /\
    ((top_n args1 = None <-> top_n args2 = None) ->
     map name rs1 = map name rs2).
Proof.
  intros conn1 conn2 args1 args2 rs1 rs2 H1 H2.
  rewrite (run_checks_names _ _ H1), (run_checks_names _ _ H2). split.
  - intros i Hi.
    do 3 (destruct i as [|i]; [reflexivity|]).
    destruct i as [|i]; [contradiction Hi; reflexivity|].
    do 2 (destruct i as [|i]; [reflexivity|]). reflexivity.
  - intros Hsame. destruct (top_n args1), (top_n args2); try reflexivity.
    + assert (Some z = None) by (apply Hsame; reflexivity). discriminate.
    + assert (@None Z = None -> Some z = None) by apply Hsame.
      specialize (H eq_refl). discriminate.
Qed.

Lemma C10_names_witness :
  match run_checks (connect sample_snapshot) (with_top_n 2),
        run_checks (connect (totals_snapshot 100 150)) (with_top_n 7) with
  | Ok rs1, Ok rs2 => map name rs1 = map name rs2
  | _, _ => False
  end.
Proof.
  destruct (run_checks (connect sample_snapshot) (with_top_n 2)) as [rs1|e1] eqn:H1;
    [|vm_compute in H1; discriminate H1].
  destruct (run_checks (connect (totals_snapshot 100 150)) (with_top_n 7))
    as [rs2|e2] eqn:H2; [|vm_compute in H2; discriminate H2].
  apply (proj2 (@C10_names_stable_up_to_skipped _ _ _ _ _ _ H1 H2)).
  simpl. split; discriminate.
Defined.

(** The claim C10 fails: on one and the same snapshot the fourth name
    changes with the presence of [--top-n]. *)
Lemma C10_name_changes_when_skipped :
  match run_checks (connect sample_snapshot) default_args,
        run_checks (connect sample_snapshot) (with_top_n 2) with
  | Ok rs1, Ok rs2 =>
      nth_error (map name rs1) 3 = Some "player count matches --top-n (skipped)" /\
      nth_error (map name rs2) 3 = Some "player count matches --top-n" /\
      nth_error (map name rs1) 3 <> nth_error (map name rs2) 3
  | _, _ => False
  end.
Proof. vm_compute. repeat split; try reflexivity. discriminate. Qed.

(* ------------------------------------------------------------------ *)
(** ** The connection target, in full *)

(** X1.  [_get_database_url] gives no target exactly when neither the
    command line nor the environment holds a non-empty string; otherwise
    it gives a non-empty string, which is the one of the command line when
    that is non-empty and the one of the environment when it is not. *)
Theorem get_database_url_precedence :
  forall cli env : option string,
    (_get_database_url cli env = None <->
     opt_truthy cli = false /\ opt_truthy env = false) /\
    (forall u, _get_database_url cli env = Some u ->
       str_truthy u = true /\
       (cli = Some u \/ (opt_truthy cli = false /\ env = Some u))) /\
    (opt_truthy cli = true -> _get_database_url cli env = cli) /\
    (opt_truthy cli = false -> opt_truthy env = true ->
     _get_database_url cli env = env).
Proof.
  intros cli env. unfold _get_database_url, opt_truthy.
  destruct cli as [c|], env as [e|];
    try destruct (str_truthy c) eqn:Hc; try destruct (str_truthy e) eqn:He;
    cbv zeta; rewrite ?Hc, ?He;
    repeat split; intros;
    repeat match goal with
           | H : _ /\ _ |- _ => destruct H
           | H : Some _ = Some _ |- _ => injection H as <-
           end;
    try discriminate; try congruence; auto.
Qed.

Lemma report_loop_out (checks : list CheckResult) :
  forall out failed,
    fst (report_loop checks out failed)
    = List.app out (flat_map render_check checks).
Proof.
  induction checks as [|c checks IH]; intros out failed; simpl.
  - rewrite app_nil_r. reflexivity.
  - rewrite IH. unfold print, render_check.
    destruct (str_truthy (details c)); rewrite <- !app_assoc; reflexivity.
Qed.

Lemma render_check_lines (checks : list CheckResult) :
  List.length (flat_map render_check checks)
  = (List.length checks
     + List.length (filter (fun c => str_truthy (details c)) checks))%nat.
Proof.
  induction checks as [|c checks IH]; [reflexivity|].
  cbn [flat_map filter]. rewrite length_app, IH. unfold render_check.
  destruct (str_truthy (details c)); simpl; lia.
Qed.

Lemma report_layout_stdout (checks : list CheckResult) :
  stdout (report checks)
  = List.app ((nl ++ "[VALIDATE] RESULTS") :: flat_map render_check checks)
             [verdict_line checks] /\
  stderr (report checks) = [].
Proof.
  split.
  - unfold report, verdict_line, count_failed.
    assert (H1 := report_loop_out checks [nl ++ "[VALIDATE] RESULTS"] 0).
    assert (H2 := report_loop_failed checks [nl ++ "[VALIDATE] RESULTS"] 0).
    rewrite (report_loop_failed checks [] 0).
    destruct (report_loop checks [nl ++ "[VALIDATE] RESULTS"] 0) as [out failed].
    cbn [fst snd] in H1, H2. rewrite <- H2.
    destruct (failed =? 0); cbn [negb stdout]; unfold print; rewrite H1;
      reflexivity.
  - unfold report.
    destruct (report_loop checks [nl ++ "[VALIDATE] RESULTS"] 0) as [out failed].
    destruct (negb (failed =? 0)); reflexivity.
Qed.

(** X2.  The report is a sequence of calls of [print]: the header, then
    for each result in order its status and name and, when it has details,
    one more call with the details indented (one call, of as many lines as
    the details have), then the verdict.  Nothing goes to the standard
    error, and the number of calls is two more than the number of results
    plus the number of results with details. *)
Theorem report_layout :
  forall checks : list CheckResult,
    stdout (report checks)
    = List.app ((nl ++ "[VALIDATE] RESULTS") :: flat_map render_check checks)
               [verdict_line checks] /\
    stderr (report checks) = [] /\
    List.length (stdout (report checks))
    = (2 + List.length checks
       + List.length (filter (fun c => str_truthy (details c)) checks))%nat.
Proof.
  intros checks. destruct (report_layout_stdout checks) as [Hout Herr].
  split; [exact Hout|]. split; [exact Herr|].
  rewrite Hout. rewrite length_app. cbn [List.length].
  rewrite render_check_lines. lia.
Qed.

Lemma replace_nl_app (by_ a b : string) :
  replace_nl by_ (a ++ b) = replace_nl by_ a ++ replace_nl by_ b.
Proof.
  induction a as [|c a IH]; simpl; [reflexivity|].
  rewrite IH. destruct (Ascii.eqb c (ascii_of_nat 10)); simpl.
  - rewrite str_app_assoc. reflexivity.
  - reflexivity.
Qed.

Lemma replace_nl_newline_free (by_ s : string) :
  newline_free s = true -> replace_nl by_ s = s.
Proof.
  induction s as [|c s IH]; simpl; [reflexivity|].
  destruct (Ascii.eqb c (ascii_of_nat 10)); simpl; [discriminate|].
  intros H. rewrite IH by exact H. reflexivity.
Qed.

Lemma replace_nl_nl (by_ : string) : replace_nl by_ nl = by_.
Proof. unfold nl. simpl. apply str_app_nil_r. Qed.

(** X3.  Details made of several lines keep their lines in the report:
    every line break is followed by the indent of six blanks, and nothing
    else changes. *)
Theorem replace_nl_indents_each_line :
  forall (indent : string) (lines : list string),
    Forall (fun l => newline_free l = true) lines ->
    replace_nl (nl ++ indent) (join nl lines) = join (nl ++ indent) lines.
Proof.
  intros indent lines Hfree.
  induction Hfree as [|l lines Hl Hrest IH]; [reflexivity|].
  destruct lines as [|l' lines].
  - simpl. apply replace_nl_newline_free. exact Hl.
  - change (join nl (l :: l' :: lines)) with (l ++ nl ++ join nl (l' :: lines)).
    change (join (nl ++ indent) (l :: l' :: lines))
      with (l ++ (nl ++ indent) ++ join (nl ++ indent) (l' :: lines)).
    rewrite !replace_nl_app, IH, replace_nl_nl.
    rewrite replace_nl_newline_free by exact Hl. reflexivity.
Qed.

Lemma replace_nl_indents_witness :
  Forall (fun l => newline_free l = true) ["Found:"; "  D2 -> 7"; "  D9 -> 3"] /\
  replace_nl (nl ++ "      ") (join nl ["Found:"; "  D2 -> 7"; "  D9 -> 3"])
  = join (nl ++ "      ") ["Found:"; "  D2 -> 7"; "  D9 -> 3"].
Proof.
  assert (H : Forall (fun l => newline_free l = true)
                     ["Found:"; "  D2 -> 7"; "  D9 -> 3"])
    by (repeat constructor).
  split; [exact H|].
  exact (@replace_nl_indents_each_line "      " _ H).
Defined.

(* ------------------------------------------------------------------ *)
(** ** The script from end to end *)

Lemma report_exit_status_ok (checks : list CheckResult) :
  exit_status (report checks) = 0 <-> Forall (fun c => ok c = true) checks.
Proof.
  rewrite report_exit_status. unfold count_failed.
  rewrite report_loop_failed, <- failures_nil.
  destruct (failures checks); simpl; split; intros H; try reflexivity;
    try discriminate; lia.
Qed.

Lemma report_exit_status_cases (checks : list CheckResult) :
  exit_status (report checks) = 0 \/ exit_status (report checks) = 1.
Proof. rewrite report_exit_status. destruct (_ =? 0); auto. Qed.

Lemma guard_passed_gives_url (cli : option string) (env : string) :
  str_truthy env = true ->
  _get_database_url cli (Some env)
  = Some (match cli with
          | Some c => if str_truthy c then c else env
          | None => env
          end).
Proof.
  intros He. unfold _get_database_url.
  destruct cli as [c|]; [destruct (str_truthy c) eqn:Hc|]; cbv zeta;
    rewrite ?Hc, ?He; reflexivity.
Qed.

(** X4.  The exit status of the script on a command line.  It is 0
    exactly when DATABASE_URL is set and not empty and either [parse_args]
    ends the run after the help text, or it returns the arguments, the
    engine connects to the target that was chosen, the six checks all
    return and all of them pass.  It is 2 exactly when DATABASE_URL is set
    and not empty and [parse_args] refuses the command line.  In every
    other case it is 1. *)
Theorem script_exit_status :
  forall (env : option string) (parse : parse_outcome)
         (engine : string -> Result Conn),
    (exit_status (script_on_command_line env parse engine) = 0 <->
     exists e : string,
       env = Some e /\ str_truthy e = true /\
       ((exists help, parse = HelpExit help) \/
        exists (args : Args) (url : string) (conn : Conn)
               (rs : list CheckResult),
          parse = Parsed args /\
          _get_database_url (database_url args) env = Some url /\
          engine url = Ok conn /\
          run_checks conn args = Ok rs /\
          Forall (fun c => ok c = true) rs)) /\
    (exit_status (script_on_command_line env parse engine) = 2 <->
     exists (e : string) (usage : list string),
       env = Some e /\ str_truthy e = true /\ parse = UsageError usage) /\
    (exit_status (script_on_command_line env parse engine) = 0 \/
     exit_status (script_on_command_line env parse engine) = 1 \/
     exit_status (script_on_command_line env parse engine) = 2) /\
    (forall args : Args,
       parse = Parsed args ->
       script_on_command_line env parse engine = script env args engine).
Proof.
  intros env parse engine.
  assert (Hparsed : forall args : Args,
             parse = Parsed args ->
             script_on_command_line env parse engine = script env args engine)
    by (intros args ->; reflexivity).
  cut ((exit_status (script_on_command_line env parse engine) = 0 <->
        exists e : string,
          env = Some e /\ str_truthy e = true /\
          ((exists help, parse = HelpExit help) \/
           exists (args : Args) (url : string) (conn : Conn)
                  (rs : list CheckResult),
             parse = Parsed args /\
             _get_database_url (database_url args) env = Some url /\
             engine url = Ok conn /\
             run_checks conn args = Ok rs /\
             Forall (fun c => ok c = true) rs)) /\
       (exit_status (script_on_command_line env parse engine) = 2 <->
        exists (e : string) (usage : list string),
          env = Some e /\ str_truthy e = true /\ parse = UsageError usage) /\
       (exit_status (script_on_command_line env parse engine) = 0 \/
        exit_status (script_on_command_line env parse engine) = 1 \/
        exit_status (script_on_command_line env parse engine) = 2)).
  { intros (HA & HB & HC).
    split; [exact HA|]. split; [exact HB|]. split; [exact HC|exact Hparsed]. }
  clear Hparsed. unfold script_on_command_line.
  destruct env as [e|]; [destruct (str_truthy e) eqn:He|]; cbn [negb].
  - destruct parse as [args|help|usage]; cbn [exit_status].
    + unfold main. rewrite (guard_passed_gives_url _ _ He).
      set (url := match database_url args with
                  | Some c => if str_truthy c then c else e
                  | None => e
                  end).
      assert (Hinv : forall (P : Conn -> list CheckResult -> Prop),
                 (exists (e0 : string),
                    Some e = Some e0 /\ str_truthy e0 = true /\
                    ((exists help, Parsed args = HelpExit help) \/
                     exists (args0 : Args) (url0 : string) (conn : Conn)
                            (rs : list CheckResult),
                       Parsed args = Parsed args0 /\
                       _get_database_url (database_url args0) (Some e) = Some url0 /\
                       engine url0 = Ok conn /\
                       run_checks conn args0 = Ok rs /\
                       P conn rs)) ->
                 exists conn rs,
                   engine url = Ok conn /\ run_checks conn args = Ok rs /\
                   P conn rs).
      { intros P (e0 & _ & _ & [[help Hp]|Hp]); [discriminate|].
        destruct Hp as (args' & url' & conn' & rs' & Hp & Hu & Hc & Hr & HP).
        injection Hp as <-.
        rewrite (guard_passed_gives_url _ _ He) in Hu. injection Hu as <-.
        exists conn', rs'. auto. }
      destruct (engine url) as [conn|ex] eqn:Hengine; cbn [bind].
      * destruct (run_checks conn args) as [rs|ex] eqn:Hrun.
        -- split; [|split].
           ++ rewrite report_exit_status_ok. split.
              ** intros Hall. exists e. split; [reflexivity|]. split; [exact He|].
                 right. exists args, url, conn, rs.
                 split; [reflexivity|].
                 split; [apply (guard_passed_gives_url _ _ He)|]. auto.
              ** intros H.
                 destruct (Hinv (fun _ rs => Forall (fun c => ok c = true) rs) H)
                   as (conn' & rs' & Hc & Hr & Hall).
                 injection Hc as <-. rewrite Hrun in Hr. injection Hr as <-.
                 exact Hall.
           ++ split.
              ** intros H2. exfalso.
                 destruct (report_exit_status_cases rs) as [H|H];
                   rewrite H in H2; discriminate H2.
              ** intros (e' & usage & _ & _ & Hp). discriminate.
           ++ destruct (report_exit_status_cases rs) as [H|H]; rewrite H; auto.
        -- cbn [uncaught exit_status].
           split; [|split].
           ++ split; [discriminate|]. intros H.
              destruct (Hinv (fun _ _ => True)) as (conn' & rs' & Hc & Hr & _).
              { destruct H as (e0 & H1 & H2 & [Hh|Hp]); exists e0;
                  (split; [exact H1|]); (split; [exact H2|]); [left; exact Hh|].
                right.
                destruct Hp as (a & u & c & r & Q1 & Q2 & Q3 & Q4 & _).
                exists a, u, c, r. auto. }
              injection Hc as <-. rewrite Hrun in Hr. discriminate.
           ++ split; [discriminate|].
              intros (e' & usage & _ & _ & Hp). discriminate.
           ++ auto.
      * cbn [uncaught exit_status].
        split; [|split].
        -- split; [discriminate|]. intros H.
           destruct (Hinv (fun _ _ => True)) as (conn' & rs' & Hc & _).
           { destruct H as (e0 & H1 & H2 & [Hh|Hp]); exists e0;
               (split; [exact H1|]); (split; [exact H2|]); [left; exact Hh|].
             right.
             destruct Hp as (a & u & c & r & Q1 & Q2 & Q3 & Q4 & _).
             exists a, u, c, r. auto. }
           discriminate.
        -- split; [discriminate|].
           intros (e' & usage & _ & _ & Hp). discriminate.
        -- auto.
    + split; [|split].
      * split; [|reflexivity]. intros _. exists e.
        split; [reflexivity|]. split; [exact He|]. left. exists help. reflexivity.
      * split; [discriminate|].
        intros (e' & usage & _ & _ & Hp). discriminate.
      * auto.
    + split; [|split].
      * split; [discriminate|].
        intros (e' & _ & _ & [[help Hp]|Hp]); [discriminate|].
        destruct Hp as (args' & url' & conn' & rs' & Hp & _). discriminate.
      * split; [|reflexivity]. intros _. exists e, usage. auto.
      * auto.
  - cbn [exit_status]. split; [|split].
    + split; [discriminate|].
      intros (e' & He' & Ht & _). injection He' as <-. congruence.
    + split; [discriminate|].
      intros (e' & usage & He' & Ht & _). injection He' as <-. congruence.
    + auto.
  - cbn [exit_status]. split; [|split].
    + split; [discriminate|]. intros (e' & He' & _). discriminate.
    + split; [discriminate|]. intros (e' & usage & He' & _). discriminate.
    + auto.
Qed.

(** [--help] and a command line that is refused, with DATABASE_URL set;
    without it the guard comes first. *)
Example script_help_and_usage :
  exit_status (script_on_command_line (Some "postgresql://db")
                 (HelpExit ["usage: validate_snapshot.py [-h]"])
                 (fun _ => Ok dead_conn)) = 0 /\
  exit_status (script_on_command_line (Some "postgresql://db")
                 (UsageError ["error: argument --top-n: invalid int value: 'x'"])
                 (fun _ => Ok dead_conn)) = 2 /\
  exit_status (script_on_command_line None
                 (HelpExit ["usage: validate_snapshot.py [-h]"])
                 (fun _ => Ok dead_conn)) = 1.
Proof. repeat split. Qed.

(** X5.  The script never ends through [_fail]: when the guard at the
    top of the module lets the run through, [_get_database_url] has a
    target, so the line of [_fail] is never on the standard output. *)
Theorem script_never_calls_fail :
  forall (env : option string) (args : Args) (engine : string -> Result Conn)
         (msg : string),
    stdout (script env args engine) <> stdout (_fail msg).
Proof.
  intros env args engine msg. unfold script, _fail. cbn [stdout].
  destruct env as [e|]; [destruct (str_truthy e) eqn:He|]; cbn [negb stdout];
    try discriminate.
  unfold main. rewrite (guard_passed_gives_url _ _ He).
  destruct (_ <- engine _ ;; run_checks _ args) as [rs|ex];
    [|cbn [uncaught stdout]; discriminate].
  rewrite (proj1 (report_layout_stdout rs)). simpl. discriminate.
Qed.

(* ------------------------------------------------------------------ *)
(** ** The non-empty catalog and the expected population *)

(** X6.  On a snapshot the non-empty catalog check fails exactly when
    [meta_deck_types] has no row, and then says so in its details; when it
    passes it has no details. *)
Theorem meta_check_fails_iff_no_row :
  forall s : Snapshot,
    exists r,
      check_meta_not_empty (connect s) = Ok r /\
      name r = "meta sanity: meta_deck_types not empty" /\
      (ok r = false <-> meta_deck_types s = []) /\
      details r = if ok r then EmptyString else "meta_deck_types is empty".
Proof.
  intros s. unfold check_meta_not_empty, _run_scalar, connect, scalar,
    eval_scalar, sql_count. cbn [bind truthy int_or_0].
  destruct (meta_deck_types s) as [|row rows]; cbn [List.length].
  - eexists. split; [reflexivity|]. repeat split; reflexivity.
  - replace (Z.of_nat (S (List.length rows)) =? 0) with false
      by (symmetry; apply Z.eqb_neq; lia).
    eexists. split; [reflexivity|]. repeat split; try reflexivity; discriminate.
Qed.

(** X7.  Without an expected size the check passes under its skipped
    name on any connection, a dead one included, since it sends no
    statement.  With an expected size it passes on a snapshot exactly when
    [player] has that many rows, so never for a negative size, and its
    details give the count found, with the size expected when they
    differ. *)
Theorem expected_check_behaviour :
  (forall conn : Conn,
     check_expected_topn_player_count conn None
     = Ok {| name := "player count matches --top-n (skipped)";
             ok := true; details := EmptyString |}) /\
  (forall (s : Snapshot) (expected : Z),
     let n := Z.of_nat (List.length (player s)) in
     exists r,
       check_expected_topn_player_count (connect s) (Some expected) = Ok r /\
       name r = "player count matches --top-n" /\
       (ok r = true <-> n = expected) /\
       (expected < 0 -> ok r = false) /\
       details r = if ok r then "player=" ++ str_of_int n
                   else "player table count = " ++ str_of_int n
                        ++ ", expected " ++ str_of_int expected).
Proof.
  split; [reflexivity|].
  intros s expected n.
  unfold check_expected_topn_player_count, _run_scalar, connect, scalar,
    eval_scalar, sql_count. cbn [bind int_or_0]. fold n.
  destruct (Z.eqb_spec n expected) as [Heq|Hne]; cbn [negb].
  - eexists. split; [reflexivity|]. cbn [name ok details].
    split; [reflexivity|]. split; [tauto|]. split; [|reflexivity].
    intros Hneg. exfalso. unfold n in Heq. lia.
  - eexists. split; [reflexivity|]. cbn [name ok details].
    split; [reflexivity|]. split; [|split; reflexivity].
    split; [discriminate|contradiction].
Qed.

Example expected_check_dead_connection :
  check_expected_topn_player_count dead_conn None
  = Ok (mk_result "player count matches --top-n (skipped)" true) /\
  check_expected_topn_player_count dead_conn (Some 2)
  = Raise (DBAPIError "connection refused").
Proof. split; reflexivity. Qed.

(* ------------------------------------------------------------------ *)
(** ** The sample of the deck check *)

Lemma NoDup_distinct (keys : list string) : NoDup (distinct keys).
Proof.
  induction keys as [|k keys IH]; simpl; constructor.
  - rewrite filter_In. intros [_ H]. rewrite String.eqb_refl in H. discriminate.
  - apply NoDup_filter. exact IH.
Qed.

Lemma NoDup_map_fst_filter {A B : Type} (f : A * B -> bool) (l : list (A * B)) :
  NoDup (map fst l) -> NoDup (map fst (filter f l)).
Proof.
  induction l as [|x l IH]; simpl; intros H; [constructor|].
  inversion H as [|? ? Hnotin Hnd]; subst.
  destruct (f x); simpl; [|auto].
  constructor; [|auto].
  intros Hin. apply Hnotin. apply in_map_iff in Hin.
  destruct Hin as (y & Hy & Hin). apply filter_In in Hin.
  apply in_map_iff. exists y. tauto.
Qed.

Lemma bad_deck_groups_NoDup (t : list deck_card_row) :
  NoDup (map fst (bad_deck_groups t)).
Proof.
  unfold bad_deck_groups. apply NoDup_map_fst_filter.
  unfold deck_groups. rewrite map_map. cbn [fst]. rewrite map_id.
  apply NoDup_distinct.
Qed.

Lemma NoDup_firstn {A : Type} (n : nat) (l : list A) :
  NoDup l -> NoDup (firstn n l).
Proof.
  intros H. rewrite <- (firstn_skipn n l) in H.
  apply NoDup_app_remove_r in H. exact H.
Qed.

(** X8.  Whatever order the database lists the groups in, the answer of
    the deck statement names each deck at most once and has as many rows as
    there are decks with a number of cards other than 8, up to 20; when it
    has fewer than 20 rows, no such deck is missing from it. *)
Theorem deck_sample_size :
  forall (t : list deck_card_row) (rows : list (string * Z)),
    bad_deck_answer t rows ->
    NoDup (map fst rows) /\
    List.length rows = Nat.min 20 (List.length (bad_deck_groups t)) /\
    ((List.length rows < 20)%nat ->
     forall h, In h (map deck_hash t) -> rows_of_deck t h <> 8 ->
               In (h, rows_of_deck t h) rows).
Proof.
  intros t rows (groups & Hperm & ->). unfold limit_20.
  assert (Hlen : List.length groups = List.length (bad_deck_groups t))
    by (apply Permutation_length; exact Hperm).
  split; [|split].
  - rewrite <- firstn_map. apply NoDup_firstn.
    apply (Permutation_NoDup (l := map fst (bad_deck_groups t))).
    + apply Permutation_map. symmetry. exact Hperm.
    + apply bad_deck_groups_NoDup.
  - rewrite length_firstn, Hlen. reflexivity.
  - rewrite length_firstn. intros Hshort h Hin Hne.
    rewrite firstn_all2 by lia.
    apply (Permutation_in (l := bad_deck_groups t)); [symmetry; exact Hperm|].
    apply In_bad_deck_groups. auto.
Qed.

Lemma deck_sample_size_witness :
  bad_deck_answer many_bad_decks (limit_20 (bad_deck_groups many_bad_decks)) /\
  List.length (limit_20 (bad_deck_groups many_bad_decks)) = 20%nat /\
  List.length (bad_deck_groups many_bad_decks) = 25%nat.
Proof.
  assert (Hans : bad_deck_answer many_bad_decks
                   (limit_20 (bad_deck_groups many_bad_decks))).
  { exists (bad_deck_groups many_bad_decks).
    split; [apply Permutation_refl|reflexivity]. }
  split; [exact Hans|].
  destruct (deck_sample_size Hans) as (_ & Hlen & _).
  split; [rewrite Hlen|]; vm_compute; reflexivity.
Defined.

(* ------------------------------------------------------------------ *)
(** ** The checks on any connection *)




(** X10.  On any connection that answers its two sums, NULL included,
    the cross-table check returns a result: no division by zero and no
    overflow can leave it.  A NULL sum counts as 0, and the check passes
    exactly when the first sum is not 0 and the second lies between it and
    its double. *)
Theorem totals_check_any_answers :
  forall (conn : Conn) (a b : option Z),
    scalar conn Q_sum_player_decks_uses = Ok a ->
    scalar conn Q_sum_meta_uses = Ok b ->
    exists r,
      check_totals_sanity_topn_vs_meta conn = Ok r /\
      (ok r = true <->
       int_or_0 a <> 0 /\ int_or_0 a <= int_or_0 b <= 2 * int_or_0 a) /\
      (a = None -> ok r = false).
Proof.
  intros conn a b Ha Hb. unfold check_totals_sanity_topn_vs_meta, _run_scalar.
  rewrite Ha, Hb. cbn [bind].
  set (topn_obs := int_or_0 a). set (meta_obs := int_or_0 b).
  assert (Hnull : a = None -> topn_obs = 0) by (intros ->; reflexivity).
  destruct (Z.eqb_spec topn_obs 0) as [H0|H0].
  { eexists. split; [reflexivity|]. cbn [ok].
    split; [split; [discriminate|lia]|reflexivity]. }
  destruct (Z.ltb_spec meta_obs topn_obs) as [Hlt|Hge].
  { eexists. split; [reflexivity|]. cbn [ok].
    split; [split; [discriminate|lia]|reflexivity]. }
  destruct (Z.gtb_spec meta_obs (2 * topn_obs)) as [Hgt|Hle].
  { eexists. split; [reflexivity|]. cbn [ok].
    split; [split; [discriminate|lia]|reflexivity]. }
  destruct (@int_true_div_ok meta_obs topn_obs) as [q Hq]; [assumption|lia|].
  rewrite Hq. cbn [bind]. eexists. split; [reflexivity|]. cbn [ok].
  split; [split; [intros _; lia|reflexivity]|].
  intros Hn. exfalso. apply H0, Hnull, Hn.
Qed.

Lemma totals_check_any_answers_witness :
  exists r,
    check_totals_sanity_topn_vs_meta (sums_conn None (Some 150)) = Ok r /\
    ok r = false.
Proof.
  destruct (@totals_check_any_answers (sums_conn None (Some 150)) None (Some 150)
              eq_refl eq_refl) as (r & Hr & _ & Hnull).
  exists r. split; [exact Hr|]. apply Hnull. reflexivity.
Defined.

(* ------------------------------------------------------------------ *)
(** ** More on the unresolved-label ratio *)

Lemma float_gt_zero_sign (s : bool) (y : float) :
  float_gt (S754_zero s) y = float_gt (S754_zero false) y.
Proof. destruct y; reflexivity. Qed.

(** X11.  The comment in the code, made exact: when no row of
    [meta_deck_types] carries the label unknown, the total is not 0 and
    the ceiling is not below zero, the check passes, with a ratio of zero
    in its details (minus zero when the total is negative).  The labels
    are in ASCII, where ILIKE against the word unknown is the comparison
    of the lower-cased label with it. *)
Theorem unknown_check_without_the_label :
  forall (s : Snapshot) (ceiling : float),
    Forall (fun r => ascii_text (deck_type r) = true) (meta_deck_types s) ->
    Forall (fun r => String.eqb (lower (deck_type r)) "unknown" = false)
           (meta_deck_types s) ->
    sum_uses (meta_deck_types s) <> 0 ->
    float_gt (S754_zero false) ceiling = false ->
    check_unknown_deck_type_explosion (connect s) ceiling
    = Ok {| name := "deck_type sanity: unknown ratio";
            ok := true;
            details := "Unknown ratio: 0/" ++ str_of_int (sum_uses (meta_deck_types s))
                       ++ " = "
                       ++ (if sum_uses (meta_deck_types s) <? 0 then "-0.00%"
                           else "0.00%") |}.
Proof.
  intros s ceiling _ Hnone Htotal Hceil.
  rewrite unknown_check_connect. cbv zeta.
  assert (Hrows : unknown_rows (meta_deck_types s) = []).
  { unfold unknown_rows. apply filter_nil_iff. intros r Hr.
    rewrite Forall_forall in Hnone. apply Hnone. exact Hr. }
  rewrite Hrows. change (sum_uses []) with 0.
  replace (sum_uses (meta_deck_types s) =? 0) with false
    by (symmetry; apply Z.eqb_neq; exact Htotal).
  rewrite (int_true_div_zero Htotal). cbn [bind].
  rewrite float_gt_zero_sign, Hceil.
  destruct (sum_uses (meta_deck_types s) <? 0); reflexivity.
Qed.

Lemma unknown_check_without_the_label_witness :
  Forall (fun r => ascii_text (deck_type r) = true)
         (meta_deck_types (totals_snapshot 100 150)) /\
  Forall (fun r => String.eqb (lower (deck_type r)) "unknown" = false)
         (meta_deck_types (totals_snapshot 100 150)) /\
  check_unknown_deck_type_explosion (connect (totals_snapshot 100 150))
    default_max_unknown_ratio
  = Ok {| name := "deck_type sanity: unknown ratio";
          ok := true;
          details := "Unknown ratio: 0/150 = 0.00%" |}.
Proof.
  assert (Hascii : Forall (fun r => ascii_text (deck_type r) = true)
                          (meta_deck_types (totals_snapshot 100 150)))
    by (repeat constructor).
  assert (Hnone : Forall (fun r => String.eqb (lower (deck_type r)) "unknown"
                                   = false)
                         (meta_deck_types (totals_snapshot 100 150)))
    by (repeat constructor).
  split; [exact Hascii|]. split; [exact Hnone|].
  apply (@unknown_check_without_the_label (totals_snapshot 100 150)
           default_max_unknown_ratio Hascii Hnone).
  - vm_compute. discriminate.
  - reflexivity.
Defined.

(** A total of 0, and so a table without rows, fails even without the
    label. *)
Example unknown_check_empty_table (ceiling : float) :
  check_unknown_deck_type_explosion (connect empty_snapshot) ceiling =
  Ok {| name := "deck_type sanity: unknown ratio";
        ok := false;
        details := "meta_deck_types total uses is 0" |}.
Proof. reflexivity. Qed.

(** X12.  When no row of [meta_deck_types] has a negative [uses], the
    observations under the label unknown are between 0 and the total, and
    the check returns a result for every ceiling, however large the
    counters are. *)
Theorem unknown_check_returns_on_nonnegative_uses :
  forall (s : Snapshot) (ceiling : float),
    Forall (fun r => 0 <= uses r) (meta_deck_types s) ->
    0 <= sum_uses (unknown_rows (meta_deck_types s)) <= sum_uses (meta_deck_types s) /\
    exists r, check_unknown_deck_type_explosion (connect s) ceiling = Ok r.
Proof.
  intros s ceiling Hsane.
  assert (Hb := sum_uses_filter_bounds
                  (fun r => ilike (deck_type r) "unknown") Hsane).
  fold (unknown_rows (meta_deck_types s)) in Hb.
  split; [exact Hb|].
  rewrite unknown_check_connect. cbv zeta.
  destruct (Z.eqb_spec (sum_uses (meta_deck_types s)) 0) as [H0|H0];
    [eexists; reflexivity|].
  destruct (@int_true_div_ok (sum_uses (unknown_rows (meta_deck_types s)))
              (sum_uses (meta_deck_types s))) as [q Hq]; [assumption|lia|].
  rewrite Hq. cbn [bind]. destruct (float_gt q ceiling); eexists; reflexivity.
Qed.

Lemma unknown_check_returns_witness :
  Forall (fun r => 0 <= uses r)
         (meta_deck_types (ratio_snapshot (2 ^ 70) (2 ^ 71))) /\
  exists r,
    check_unknown_deck_type_explosion (connect (ratio_snapshot (2 ^ 70) (2 ^ 71)))
      default_max_unknown_ratio = Ok r.
Proof.
  assert (H : Forall (fun r => 0 <= uses r)
                     (meta_deck_types (ratio_snapshot (2 ^ 70) (2 ^ 71))))
    by (repeat constructor; vm_compute; discriminate).
  split; [exact H|].
  exact (proj2 (@unknown_check_returns_on_nonnegative_uses
                  (ratio_snapshot (2 ^ 70) (2 ^ 71))
                  default_max_unknown_ratio H)).
Defined.

(* ------------------------------------------------------------------ *)
(** ** The order of floats and the ceiling *)

Lemma float_scaled_sign (E : Z) (s : bool) (m : positive) (e : Z) :
  E <= e ->
  if s then float_scaled E (S754_finite s m e) < 0
  else 0 < float_scaled E (S754_finite s m e).
Proof.
  intros He. unfold float_scaled.
  assert (0 < 2 ^ (e - E)) by (apply Z.pow_pos_nonneg; lia).
  destruct s; nia.
Qed.

(** [float_gt] is the order of the values. *)
Lemma float_gt_spec (E : Z) (x y : float) :
  is_nan x = false -> is_nan y = false ->
  E <= float_exponent x -> E <= float_exponent y ->
  (float_gt x y = true <->
   float_class x > float_class y \/
   (float_class x = float_class y /\ float_scaled E x > float_scaled E y)).
Proof.
  intros Hx Hy Ex Ey.
  destruct x as [sx|sx| |sx mx ex], y as [sy|sy| |sy my ey];
    try discriminate; cbn [float_exponent] in Ex, Ey.
  all: try (destruct sx, sy; cbn; split; intros H; try discriminate; lia).
  all: try (destruct sx; cbn; split; intros H; try discriminate; lia).
  all: try (destruct sy; cbn; split; intros H; try discriminate; lia).
  - assert (Hs := float_scaled_sign sy my Ey).
    cbn [float_gt float_class].
    change (float_scaled E (S754_zero sx)) with 0.
    destruct sy; split; intros H; try discriminate; try reflexivity; lia.
  - assert (Hs := float_scaled_sign sx mx Ex).
    cbn [float_gt float_class].
    change (float_scaled E (S754_zero sy)) with 0.
    destruct sx; cbn [negb]; split; intros H; try discriminate;
      try reflexivity; lia.
  - assert (Hsx := float_scaled_sign sx mx Ex).
    assert (Hsy := float_scaled_sign sy my Ey).
    cbn [float_gt float_class].
    rewrite (dyadic_compare_scaled mx my Ex Ey).
    unfold float_scaled in *.
    destruct sx, sy;
      try (split; intros H; try discriminate; try reflexivity; lia).
    + destruct (Z.compare_spec (Zpos mx * 2 ^ (ex - E)) (Zpos my * 2 ^ (ey - E)));
        split; intros H'; try discriminate; try reflexivity; lia.
    + destruct (Z.compare_spec (Zpos mx * 2 ^ (ex - E)) (Zpos my * 2 ^ (ey - E)));
        split; intros H'; try discriminate; try reflexivity; lia.
Qed.

Lemma float_gt_nan_l (y : float) : float_gt S754_nan y = false.
Proof. reflexivity. Qed.

Lemma float_gt_nan_r (x : float) : float_gt x S754_nan = false.
Proof. destruct x; reflexivity. Qed.

(** Not above [c1], which is not above [c2]: not above [c2]. *)
Lemma float_not_gt_trans (r c1 c2 : float) :
  is_nan c1 = false ->
  float_gt r c1 = false -> float_gt c1 c2 = false -> float_gt r c2 = false.
Proof.
  intros Hn H1 H2.
  destruct (is_nan r) eqn:Hr; [destruct r; try discriminate; reflexivity|].
  destruct (is_nan c2) eqn:Hc2;
    [destruct c2; try discriminate; apply float_gt_nan_r|].
  set (E := Z.min (float_exponent r)
                  (Z.min (float_exponent c1) (float_exponent c2))).
  assert (HE : E <= float_exponent r /\ E <= float_exponent c1 /\
               E <= float_exponent c2) by (unfold E; lia).
  destruct HE as (Er & E1 & E2).
  destruct (float_gt r c2) eqn:H3; [|reflexivity]. exfalso.
  apply (float_gt_spec r c2 Hr Hc2 Er E2) in H3.
  assert (N1 : ~ (float_class r > float_class c1 \/
                  float_class r = float_class c1 /\
                  float_scaled E r > float_scaled E c1)).
  { intros H. apply (float_gt_spec r c1 Hr Hn Er E1) in H. congruence. }
  assert (N2 : ~ (float_class c1 > float_class c2 \/
                  float_class c1 = float_class c2 /\
                  float_scaled E c1 > float_scaled E c2)).
  { intros H. apply (float_gt_spec c1 c2 Hn Hc2 E1 E2) in H. congruence. }
  lia.
Qed.

(** X14.  A looser ceiling never fails what a stricter one passes: when
    the check passes on a snapshot with the ceiling [c1], which is not a
    NaN, it passes with every ceiling [c2] that [c1] does not exceed. *)
Theorem unknown_check_monotone_in_ceiling :
  forall (s : Snapshot) (c1 c2 : float) (r1 : CheckResult),
    check_unknown_deck_type_explosion (connect s) c1 = Ok r1 ->
    ok r1 = true ->
    is_nan c1 = false ->
    float_gt c1 c2 = false ->
    exists r2,
      check_unknown_deck_type_explosion (connect s) c2 = Ok r2 /\
      ok r2 = true /\ details r2 = details r1.
Proof.
  intros s c1 c2 r1 H1 Hok Hnan Hle.
  rewrite unknown_check_connect in *. cbv zeta in *.
  destruct (sum_uses (meta_deck_types s) =? 0).
  { injection H1 as <-. discriminate. }
  destruct (int_true_div _ _) as [ratio|e]; [|discriminate]. cbn [bind] in *.
  destruct (float_gt ratio c1) eqn:Hgt1.
  { injection H1 as <-. discriminate. }
  rewrite (@float_not_gt_trans ratio c1 c2 Hnan Hgt1 Hle).
  injection H1 as <-. eexists. split; [reflexivity|]. split; reflexivity.
Qed.

Lemma unknown_check_monotone_witness :
  exists r2,
    check_unknown_deck_type_explosion (connect (ratio_snapshot 25 100))
      (S754_finite false 1 (-1)) = Ok r2 /\
    ok r2 = true /\ details r2 = "Unknown ratio: 25/100 = 25.00%".
Proof.
  apply (@unknown_check_monotone_in_ceiling (ratio_snapshot 25 100)
           default_max_unknown_ratio (S754_finite false 1 (-1))
           {| name := "deck_type sanity: unknown ratio";
              ok := true;
              details := "Unknown ratio: 25/100 = 25.00%" |}).
  - vm_compute. reflexivity.
  - reflexivity.
  - reflexivity.
  - vm_compute. reflexivity.
Defined.

(* ------------------------------------------------------------------ *)
(** ** Player tags *)

Lemma is_space_upper (c : ascii) : is_space (upper_ascii c) = is_space c.
Proof. destruct c as [[] [] [] [] [] [] [] []]; reflexivity. Qed.

Lemma is_space_lower (c : ascii) : is_space (lower_ascii c) = is_space c.
Proof. destruct c as [[] [] [] [] [] [] [] []]; reflexivity. Qed.

Lemma upper_ascii_idem (c : ascii) : upper_ascii (upper_ascii c) = upper_ascii c.
Proof. destruct c as [[] [] [] [] [] [] [] []]; reflexivity. Qed.

Lemma upper_lower_ascii (c : ascii) : upper_ascii (lower_ascii c) = upper_ascii c.
Proof. destruct c as [[] [] [] [] [] [] [] []]; reflexivity. Qed.

Lemma upper_idem (s : string) : upper (upper s) = upper s.
Proof.
  induction s as [|c s IH]; simpl; [reflexivity|].
  rewrite upper_ascii_idem, IH. reflexivity.
Qed.

Lemma upper_lower (s : string) : upper (lower s) = upper s.
Proof.
  induction s as [|c s IH]; simpl; [reflexivity|].
  rewrite upper_lower_ascii, IH. reflexivity.
Qed.

Lemma lstrip_upper (s : string) : lstrip (upper s) = upper (lstrip s).
Proof.
  induction s as [|c s IH]; simpl; [reflexivity|].
  rewrite is_space_upper. destruct (is_space c); [exact IH|reflexivity].
Qed.

Lemma lstrip_lower (s : string) : lstrip (lower s) = lower (lstrip s).
Proof.
  induction s as [|c s IH]; simpl; [reflexivity|].
  rewrite is_space_lower. destruct (is_space c); [exact IH|reflexivity].
Qed.

Lemma rstrip_upper (s : string) : rstrip (upper s) = upper (rstrip s).
Proof.
  induction s as [|c s IH]; simpl; [reflexivity|].
  rewrite IH, is_space_upper.
  destruct (rstrip s); simpl; [destruct (is_space c)|]; reflexivity.
Qed.

Lemma rstrip_lower (s : string) : rstrip (lower s) = lower (rstrip s).
Proof.
  induction s as [|c s IH]; simpl; [reflexivity|].
  rewrite IH, is_space_lower.
  destruct (rstrip s); simpl; [destruct (is_space c)|]; reflexivity.
Qed.

Lemma strip_upper (s : string) : strip (upper s) = upper (strip s).
Proof. unfold strip. rewrite lstrip_upper, rstrip_upper. reflexivity. Qed.

Lemma strip_lower (s : string) : strip (lower s) = lower (strip s).
Proof. unfold strip. rewrite lstrip_lower, rstrip_lower. reflexivity. Qed.

Lemma rstrip_idem (s : string) : rstrip (rstrip s) = rstrip s.
Proof.
  induction s as [|c s IH]; simpl; [reflexivity|].
  destruct (rstrip s) as [|d r] eqn:E.
  - destruct (is_space c) eqn:Hc; simpl; [reflexivity|]. rewrite Hc. reflexivity.
  - change (rstrip (String c (String d r))) with
      (match rstrip (String d r) with
       | EmptyString => if is_space c then EmptyString else String c EmptyString
       | rest' => String c rest'
       end).
    rewrite IH. reflexivity.
Qed.

(** A string that begins with a character which is no blank. *)
Lemma lstrip_head (s : string) :
  lstrip s = EmptyString \/
  exists c rest, lstrip s = String c rest /\ is_space c = false.
Proof.
  induction s as [|c s IH]; simpl; [left; reflexivity|].
  destruct (is_space c) eqn:Hc; [exact IH|]. right. exists c, s. auto.
Qed.

Lemma rstrip_keeps_head (c : ascii) (rest : string) :
  is_space c = false -> exists rest', rstrip (String c rest) = String c rest'.
Proof.
  intros Hc. simpl. destruct (rstrip rest); [rewrite Hc|]; eexists; reflexivity.
Qed.

Lemma lstrip_strip (s : string) : lstrip (strip s) = strip s.
Proof.
  unfold strip. destruct (lstrip_head s) as [->|(c & rest & -> & Hc)];
    [reflexivity|].
  destruct (@rstrip_keeps_head c rest Hc) as [rest' ->]. simpl. rewrite Hc.
  reflexivity.
Qed.

Lemma strip_idem (s : string) : strip (strip s) = strip s.
Proof.
  unfold strip at 1. rewrite lstrip_strip. unfold strip. apply rstrip_idem.
Qed.

Lemma rstrip_strip (s : string) : rstrip (strip s) = strip s.
Proof. unfold strip. apply rstrip_idem. Qed.

Lemma strip_hash (s : string) : strip s = s -> strip (String "#" s) = String "#" s.
Proof.
  intros Hs. assert (Hr : rstrip s = s) by (rewrite <- Hs; apply rstrip_strip).
  unfold strip. simpl. rewrite Hr. destruct s; reflexivity.
Qed.

Lemma normalize_cases (tag : string) :
  let cleaned := upper (strip tag) in
  strip cleaned = cleaned /\ upper cleaned = cleaned /\
  normalize_player_tag tag
  = if starts_with_hash cleaned then cleaned else String "#" cleaned.
Proof.
  cbv zeta. split; [|split].
  - rewrite strip_upper, strip_idem. reflexivity.
  - apply upper_idem.
  - unfold normalize_player_tag. destruct (starts_with_hash _); reflexivity.
Qed.

Lemma normalize_of_cleaned (c : string) :
  strip c = c -> upper c = c ->
  normalize_player_tag c = if starts_with_hash c then c else String "#" c.
Proof.
  intros Hs Hu. unfold normalize_player_tag. rewrite Hs, Hu.
  destruct (starts_with_hash c); reflexivity.
Qed.

(** X15.  [normalize_player_tag] gives a normal form of ASCII tags: its
    result begins with [#], has no blank at either end and no lower-case
    letter, and normalizing it again changes nothing. *)
Theorem normalize_player_tag_normal_form :
  forall tag : string,
    ascii_text tag = true ->
    starts_with_hash (normalize_player_tag tag) = true /\
    strip (normalize_player_tag tag) = normalize_player_tag tag /\
    upper (normalize_player_tag tag) = normalize_player_tag tag /\
    normalize_player_tag (normalize_player_tag tag) = normalize_player_tag tag.
Proof.
  intros tag _. destruct (normalize_cases tag) as (Hs & Hu & Hn).
  set (c := upper (strip tag)) in *. rewrite Hn.
  destruct (starts_with_hash c) eqn:Hh.
  - repeat split; try assumption. rewrite (@normalize_of_cleaned c Hs Hu), Hh.
    reflexivity.
  - assert (Hs' : strip (String "#" c) = String "#" c) by (apply strip_hash, Hs).
    assert (Hu' : upper (String "#" c) = String "#" c)
      by (simpl; rewrite Hu; reflexivity).
    repeat split; try assumption; try reflexivity.
    rewrite (@normalize_of_cleaned (String "#" c) Hs' Hu'). reflexivity.
Qed.

Lemma normalize_player_tag_normal_form_witness :
  ascii_text "  8c83jqlg " = true /\
  normalize_player_tag "  8c83jqlg " = "#8C83JQLG" /\
  normalize_player_tag (normalize_player_tag "  8c83jqlg ")
  = normalize_player_tag "  8c83jqlg ".
Proof.
  assert (H : ascii_text "  8c83jqlg " = true) by reflexivity.
  split; [exact H|]. split; [reflexivity|].
  exact (proj2 (proj2 (proj2 (@normalize_player_tag_normal_form _ H)))).
Defined.

Lemma rstrip_hash (s : string) : rstrip (String "#" s) = String "#" (rstrip s).
Proof. simpl. destruct (rstrip s); reflexivity. Qed.

Lemma upper_keeps_no_hash (s : string) :
  starts_with_hash s = false -> starts_with_hash (upper s) = false.
Proof.
  destruct s as [|c r]; [reflexivity|]. simpl.
  destruct c as [[] [] [] [] [] [] [] []]; try reflexivity; discriminate.
Qed.

(** X16.  Tags written differently are one tag: the case of the letters
    and the blanks around an ASCII tag do not matter.  A [#] put in front
    of the stripped tag, when that has none, does not matter either, and
    the result is then [#] followed by the stripped tag in upper case; the
    same holds for a [#] put in front of the tag itself when the tag begins
    with neither a blank nor a [#]. *)
Theorem normalize_player_tag_variants :
  forall tag : string,
    ascii_text tag = true ->
    normalize_player_tag (lower tag) = normalize_player_tag tag /\
    normalize_player_tag (upper tag) = normalize_player_tag tag /\
    normalize_player_tag (strip tag) = normalize_player_tag tag /\
    (starts_with_hash (strip tag) = false ->
     normalize_player_tag ("#" ++ strip tag) = normalize_player_tag tag /\
     normalize_player_tag tag = "#" ++ upper (strip tag)) /\
    (lstrip tag = tag -> starts_with_hash tag = false ->
     normalize_player_tag ("#" ++ tag) = normalize_player_tag tag /\
     normalize_player_tag tag = "#" ++ upper (strip tag)).
Proof.
  intros tag _.
  assert (Hadd : starts_with_hash (strip tag) = false ->
                 normalize_player_tag ("#" ++ strip tag) = normalize_player_tag tag /\
                 normalize_player_tag tag = "#" ++ upper (strip tag)).
  { intros Hh. apply upper_keeps_no_hash in Hh. unfold normalize_player_tag.
    assert (Hs : strip (String "#" (strip tag)) = String "#" (strip tag))
      by (apply strip_hash, strip_idem).
    change ("#" ++ strip tag) with (String "#" (strip tag)). rewrite Hs.
    simpl upper. cbn [starts_with_hash negb Ascii.eqb].
    rewrite Hh. split; reflexivity. }
  split; [|split; [|split; [|split]]].
  - unfold normalize_player_tag. rewrite strip_lower, upper_lower. reflexivity.
  - unfold normalize_player_tag. rewrite strip_upper, upper_idem. reflexivity.
  - unfold normalize_player_tag. rewrite strip_idem. reflexivity.
  - exact Hadd.
  - intros Hl Hh.
    assert (Hstrip : strip tag = rstrip tag) by (unfold strip; rewrite Hl; reflexivity).
    assert (Hs : strip ("#" ++ tag) = strip ("#" ++ strip tag)).
    { change ("#" ++ tag) with (String "#" tag).
      change ("#" ++ strip tag) with (String "#" (strip tag)).
      rewrite (strip_hash (strip_idem tag)).
      unfold strip at 1. change (lstrip (String "#" tag)) with (String "#" tag).
      rewrite rstrip_hash, Hstrip. reflexivity. }
    assert (Hh' : starts_with_hash (strip tag) = false).
    { rewrite Hstrip. destruct tag as [|c r]; [reflexivity|]. simpl in *.
      destruct (rstrip r); [destruct (is_space c)|]; try reflexivity; exact Hh. }
    destruct (Hadd Hh') as [H1 H2]. split; [|exact H2].
    rewrite <- H1. unfold normalize_player_tag. rewrite Hs. reflexivity.
Qed.

Lemma normalize_player_tag_variants_witness :
  ascii_text "8c83Jqlg " = true /\
  lstrip "8c83Jqlg " = "8c83Jqlg " /\
  starts_with_hash "8c83Jqlg " = false /\
  normalize_player_tag ("#" ++ "8c83Jqlg ") = normalize_player_tag "8c83Jqlg " /\
  normalize_player_tag "8c83Jqlg " = "#8C83JQLG".
Proof.
  assert (H : ascii_text "8c83Jqlg " = true) by reflexivity.
  assert (Hl : lstrip "8c83Jqlg " = "8c83Jqlg ") by reflexivity.
  assert (Hh : starts_with_hash "8c83Jqlg " = false) by reflexivity.
  split; [exact H|]. split; [exact Hl|]. split; [exact Hh|].
  exact (proj2 (proj2 (proj2 (proj2 (@normalize_player_tag_variants _ H)))) Hl Hh).
Defined.

(** A [#] put in front of a tag that begins with a blank is another tag:
    the blank stays inside. *)
Example normalize_player_tag_hash_before_blank :
  normalize_player_tag ("#" ++ " 8c83Jqlg") = "# 8C83JQLG" /\
  normalize_player_tag " 8c83Jqlg" = "#8C83JQLG".
Proof. split; reflexivity. Qed.

(* ------------------------------------------------------------------ *)
(** ** The API client *)

Lemma and_then_Returns_inv {A B : Type} (t : Try A) (k : A -> Try B) (b : B) :
  and_then t k = Returns b -> exists a, t = Returns a /\ k a = Returns b.
Proof. destruct t as [a|e]; simpl; [eauto|discriminate]. Qed.

Lemma get_headers_with_key (k : string) :
  str_truthy k = true ->
  _get_headers (Some k) = Returns [("Authorization", "Bearer " ++ k)].
Proof. intros Hk. unfold _get_headers. simpl. rewrite Hk. reflexivity. Qed.

Lemma get_headers_without_key (key : option string) :
  opt_truthy key = false ->
  _get_headers key
  = Raises (RuntimeError "CR_API_KEY is not set. Please add it to your .env file.").
Proof. intros Hk. unfold _get_headers. rewrite Hk. reflexivity. Qed.

(** X17.  Without a key, or with an empty one, every entry point of the
    client raises the same [RuntimeError], whatever the network would have
    answered: no request depends on it. *)
Theorem no_key_no_request :
  forall (key : option string)
         (requests_get : string -> list (string * string) ->
                         list (string * json) -> Try Response)
         (repr : json -> string),
    opt_truthy key = false ->
    (forall path params,
       cr_get key requests_get path params
       = Raises (RuntimeError "CR_API_KEY is not set. Please add it to your .env file.")) /\
    (forall limit,
       fetch_top_players key requests_get repr limit
       = Raises (RuntimeError "CR_API_KEY is not set. Please add it to your .env file.")) /\
    (forall tag,
       get_player_battlelog key requests_get tag
       = Raises (RuntimeError "CR_API_KEY is not set. Please add it to your .env file.")).
Proof.
  intros key requests_get repr Hk.
  assert (Hget : forall path params,
             cr_get key requests_get path params
             = Raises (RuntimeError "CR_API_KEY is not set. Please add it to your .env file.")).
  { intros path params. unfold cr_get.
    rewrite (get_headers_without_key _ Hk). reflexivity. }
  split; [exact Hget|]. split.
  - intros limit. unfold fetch_top_players, get_global_top_players.
    rewrite Hget. reflexivity.
  - intros tag. unfold get_player_battlelog. rewrite Hget. reflexivity.
Qed.

Lemma no_key_no_request_witness :
  opt_truthy (Some EmptyString) = false /\
  get_player_battlelog (Some EmptyString) (answers_with (JList [])) "#8C83JQLG"
  = Raises (RuntimeError "CR_API_KEY is not set. Please add it to your .env file.").
Proof.
  assert (H : opt_truthy (Some EmptyString) = false) by reflexivity.
  split; [exact H|].
  exact (proj2 (proj2 (@no_key_no_request (Some EmptyString)
                         (answers_with (JList [])) (fun _ => EmptyString) H))
               "#8C83JQLG").
Defined.

(** X18.  [cr_get] returns a value only from an answer with status 200:
    then the key is set, the request went to [BASE_URL] followed by the
    path, with the key as bearer token and the parameters as given, and the
    value is the JSON body of that answer. *)
Theorem cr_get_returns_only_on_200 :
  forall (key : option string)
         (requests_get : string -> list (string * string) ->
                         list (string * json) -> Try Response)
         (path : string) (params : list (string * json)) (v : json),
    cr_get key requests_get path params = Returns v ->
    exists (k : string) (response : Response),
      key = Some k /\ str_truthy k = true /\
      requests_get ("https://api.clashroyale.com/v1" ++ path)
                   [("Authorization", "Bearer " ++ k)] params
      = Returns response /\
      status_code response = 200 /\
      json_body response = Returns v.
Proof.
  intros key requests_get path params v H. unfold cr_get in H.
  apply and_then_Returns_inv in H. destruct H as (headers & Hh & H).
  apply and_then_Returns_inv in H. destruct H as (response & Hr & H).
  unfold _get_headers in Hh.
  destruct key as [k|]; [|discriminate]. cbn [opt_truthy] in Hh.
  destruct (str_truthy k) eqn:Hk; [|discriminate]. cbn [negb] in Hh.
  injection Hh as <-.
  destruct (Z.eqb_spec (status_code response) 200) as [H200|Hne];
    [|discriminate].
  exists k, response. auto.
Qed.

Lemma cr_get_returns_only_on_200_witness :
  exists (k : string) (response : Response),
    Some "secret" = Some k /\ str_truthy k = true /\
    answers_with (JList []) ("https://api.clashroyale.com/v1" ++ "/players/%23A")
                 [("Authorization", "Bearer " ++ k)] []
    = Returns response /\
    status_code response = 200 /\
    json_body response = Returns (JList []).
Proof.
  apply (@cr_get_returns_only_on_200 (Some "secret") (answers_with (JList []))
           "/players/%23A" [] (JList [])).
  reflexivity.
Defined.

Example cr_get_404 :
  cr_get (Some "secret") answers_404 "/players/%23A" []
  = Raises (RuntimeError "Clash Royale API error 404: notFound").
Proof. vm_compute. reflexivity. Qed.

Lemma normalize_starts_with_hash (tag : string) :
  exists body, normalize_player_tag tag = String "#" body.
Proof.
  unfold normalize_player_tag.
  destruct (starts_with_hash (upper (strip tag))) eqn:Hh; cbn [negb].
  - destruct (upper (strip tag)) as [|c body]; [discriminate|].
    simpl in Hh. apply Ascii.eqb_eq in Hh. subst c. eexists; reflexivity.
  - eexists; reflexivity.
Qed.

(** X19.  For every ASCII tag, [get_player_battlelog] asks for one path
    only, [/players/%23] followed by the normalized tag without its [#] and
    by [/battlelog]: two networks that answer alike at that URL, with the
    key as bearer token and no parameter, give the same result, however
    they differ elsewhere. *)
Theorem battlelog_request :
  forall (k : string)
         (net1 net2 : string -> list (string * string) ->
                      list (string * json) -> Try Response)
         (tag : string),
    str_truthy k = true ->
    ascii_text tag = true ->
    exists body,
      normalize_player_tag tag = "#" ++ body /\
      (net1 ("https://api.clashroyale.com/v1/players/%23" ++ body ++ "/battlelog")
            [("Authorization", "Bearer " ++ k)] []
       = net2 ("https://api.clashroyale.com/v1/players/%23" ++ body ++ "/battlelog")
              [("Authorization", "Bearer " ++ k)] [] ->
       get_player_battlelog (Some k) net1 tag
       = get_player_battlelog (Some k) net2 tag).
Proof.
  intros k net1 net2 tag Hk _.
  destruct (normalize_starts_with_hash tag) as [body Hbody].
  exists body. split; [exact Hbody|].
  intros Hsame. unfold get_player_battlelog, cr_get.
  rewrite (get_headers_with_key _ Hk). cbn [and_then].
  rewrite Hbody.
  change (BASE_URL ++ "/players/" ++ encode_first_hash (String "#" body)
          ++ "/battlelog")
    with ("https://api.clashroyale.com/v1/players/%23" ++ body ++ "/battlelog").
  rewrite Hsame. reflexivity.
Qed.

Lemma battlelog_request_witness :
  str_truthy "secret" = true /\
  ascii_text " 8c83jqlg" = true /\
  answers_with (JList []) "https://api.clashroyale.com/v1/locations" [] []
  <> answers_only_at
       "https://api.clashroyale.com/v1/players/%238C83JQLG/battlelog"
       (JList []) "https://api.clashroyale.com/v1/locations" [] [] /\
  get_player_battlelog (Some "secret") (answers_with (JList [])) " 8c83jqlg"
  = get_player_battlelog (Some "secret")
      (answers_only_at
         "https://api.clashroyale.com/v1/players/%238C83JQLG/battlelog"
         (JList []))
      " 8c83jqlg".
Proof.
  assert (H : str_truthy "secret" = true) by reflexivity.
  assert (Ha : ascii_text " 8c83jqlg" = true) by reflexivity.
  split; [exact H|]. split; [exact Ha|]. split; [vm_compute; discriminate|].
  destruct (@battlelog_request "secret" (answers_with (JList []))
              (answers_only_at
                 "https://api.clashroyale.com/v1/players/%238C83JQLG/battlelog"
                 (JList []))
              " 8c83jqlg" H Ha) as (body & Hbody & Hsame).
  vm_compute in Hbody. injection Hbody as <-.
  apply Hsame. reflexivity.
Defined.

(** Only the leading [#] is encoded; one inside the tag stays. *)
Example battlelog_path_inner_hash :
  encode_first_hash (normalize_player_tag "a#b") = "%23A#B" /\
  encode_first_hash (normalize_player_tag " #8c83jqlg ") = "%238C83JQLG".
Proof. split; reflexivity. Qed.

(** X20.  What [fetch_top_players] returns is either a true value, which
    is the entry [items] of a dict answered by the leaderboard, with
    nothing printed, or the empty list, with a line of error or warning
    printed; it never returns another false value such as [None], [0] or
    an empty dict. *)
Theorem fetch_top_players_result :
  forall (key : option string)
         (requests_get : string -> list (string * string) ->
                         list (string * json) -> Try Response)
         (repr : json -> string) (limit : Z)
         (out : list string) (v : json),
    fetch_top_players key requests_get repr limit = Returns (out, v) ->
    (json_truthy v = true /\ out = [] /\
     exists items,
       get_global_top_players key requests_get limit = Returns (JDict items) /\
       dict_lookup items "items" = Some v) \/
    (v = JList [] /\ out <> []).
Proof.
  intros key requests_get repr limit out v H. unfold fetch_top_players in H.
  apply and_then_Returns_inv in H. destruct H as (data & Hdata & H).
  destruct (json_truthy data) eqn:Ht; cbn [negb] in H.
  - apply and_then_Returns_inv in H. destruct H as (items & Hitems & H).
    destruct data as [| | | | | |kv]; try discriminate.
    cbn [json_get] in Hitems. injection Hitems as <-.
    destruct (dict_lookup kv "items") as [w|] eqn:Hl.
    + destruct (json_truthy w) eqn:Hw; cbn [negb] in H; injection H as <- <-.
      * left. split; [exact Hw|]. split; [reflexivity|]. exists kv. auto.
      * right. split; [reflexivity|discriminate].
    + cbn [json_truthy negb] in H. injection H as <- <-.
      right. split; [reflexivity|discriminate].
  - injection H as <- <-. right. split; [reflexivity|discriminate].
Qed.

Lemma fetch_top_players_result_witness :
  fetch_top_players (Some "secret") (answers_with (JDict [("items", JNull)]))
                    (fun _ => "{'items': None}") 10
  = Returns (["WARNING: No players found in 'items'. Full response:";
              "{'items': None}"], JList []) /\
  ((json_truthy (JList []) = true /\
    ["WARNING: No players found in 'items'. Full response:"; "{'items': None}"]
    = [] /\
    exists items,
      get_global_top_players (Some "secret")
        (answers_with (JDict [("items", JNull)])) 10 = Returns (JDict items) /\
      dict_lookup items "items" = Some (JList [])) \/
   (JList [] = JList [] /\
    ["WARNING: No players found in 'items'. Full response:"; "{'items': None}"]
    <> [])).
Proof.
  assert (H : fetch_top_players (Some "secret")
                (answers_with (JDict [("items", JNull)]))
                (fun _ => "{'items': None}") 10
              = Returns (["WARNING: No players found in 'items'. Full response:";
                          "{'items': None}"], JList [])) by reflexivity.
  split; [exact H|].
  exact (@fetch_top_players_result _ _ _ _ _ _ H).
Defined.

(** A leaderboard answered as a list has no method [get]. *)
Example fetch_top_players_on_a_list :
  fetch_top_players (Some "secret") (answers_with (JList [JInt 1]))
                    (fun _ => EmptyString) 10
  = Raises (AttributeError "list").
Proof. reflexivity. Qed.
